(** * Speaker verification with PLDA on VoxCeleb: the recipe script

    A shallow embedding of
    [recipes/VoxCeleb/SpeakerRec/speaker_verification_plda.py]:
    the ground-truth trial parser and score partition of [compute_EER],
    the embedding accumulation of [emb_computation_loop] and of the
    training block of the script, and the file caches around them.

    Python strings are [string]s whose characters are code points below
    256; Python floats and float64 array cells are the kernel's binary64
    floats; exceptions are identified by the name of their class.  The
    trial file is given by the lines that iterating over it yields, the
    files of the save folder by a finite map from paths, and the messages
    sent to the logger are left out. *)

From Stdlib Require Import Floats.PrimFloat.
From Stdlib Require Import ZArith Lia Ascii String.
From stdpp Require Import base option list strings gmap.

Local Open Scope Z_scope.

(** ** Exceptions and results *)

(** An exception, identified by its class name. *)
Definition exn := string.

Definition IndexError : exn := "IndexError"%string.
Definition ValueError : exn := "ValueError"%string.
Definition AttributeError : exn := "AttributeError"%string.
Definition FileNotFoundError : exn := "FileNotFoundError"%string.
Definition IsADirectoryError : exn := "IsADirectoryError"%string.
Definition UnpicklingError : exn := "UnpicklingError"%string.

(** The class the specification's taxonomy names for a trial missing from
    the index.  The script neither defines nor raises it. *)
Definition TrialNotFoundError : exn := "TrialNotFoundError"%string.

(** A computation that returns a value or raises. *)
Inductive res (A : Type) : Type :=
| Ok (a : A)
| Err (e : exn).
Arguments Ok {A} a.
Arguments Err {A} e.

#[global] Instance res_ret : MRet res := fun _ a => Ok a.
#[global] Instance res_bind : MBind res := fun _ _ f m =>
  match m with
  | Ok a => f a
  | Err e => Err e
  end.

(** [xs[k]] for a non-negative [k]. *)
Definition index {A} (xs : list A) (k : nat) : res A :=
  match xs !! k with
  | Some x => Ok x
  | None => Err IndexError
  end.

(** ** Python string operations used by the trial parser *)

(** [str.isspace] on a single character, for code points below 256. *)
Definition is_space (c : ascii) : bool :=
  let n := N_of_ascii c in
  (((9 <=? n) && (n <=? 13)) || ((28 <=? n) && (n <=? 32))
   || (n =? 133) || (n =? 160))%N.

(** [s.split(sep)] for a one-character separator: every occurrence cuts,
    empty fields are kept, and the result is never empty. *)
Fixpoint py_split (sep : ascii) (s : string) : list string :=
  match s with
  | EmptyString => [EmptyString]
  | String c s' =>
      if Ascii.eqb c sep then EmptyString :: py_split sep s'
      else match py_split sep s' with
           | w :: ws => String c w :: ws
           | [] => [String c EmptyString]
           end
  end.

(** [s.lstrip()]. *)
Fixpoint py_lstrip (s : string) : string :=
  match s with
  | EmptyString => EmptyString
  | String c s' => if is_space c then py_lstrip s' else s
  end.

(** [s.rstrip()]. *)
Fixpoint py_rstrip (s : string) : string :=
  match s with
  | EmptyString => EmptyString
  | String c s' =>
      match py_rstrip s' with
      | EmptyString => if is_space c then EmptyString else String c EmptyString
      | r => String c r
      end
  end.

(** [s.strip()]. *)
Definition py_strip (s : string) : string := py_rstrip (py_lstrip s).

(** The value of a decimal digit character. *)
Definition digit_of (c : ascii) : option Z :=
  let n := N_of_ascii c in
  if ((48 <=? n) && (n <=? 57))%N then Some (Z.of_N n - 48) else None.

(** The digits of an [int] literal: decimal digits, with single underscores
    allowed between two digits.  [prev] says the previous character was a
    digit. *)
Fixpoint int_digits (s : string) (acc : Z) (prev : bool) : option Z :=
  match s with
  | EmptyString => if prev then Some acc else None
  | String c s' =>
      match digit_of c with
      | Some d => int_digits s' (acc * 10 + d) true
      | None =>
          if Ascii.eqb c "_" && prev then int_digits s' acc false else None
      end
  end.

(** The white space [int] skips at both ends of its argument: the six
    ASCII characters of C's [isspace] and the spaces that are not ASCII.
    The separators U+001C to U+001F, which [str.strip] removes, are left
    in place and make [int] raise. *)
Definition is_int_space (c : ascii) : bool :=
  let n := N_of_ascii c in
  (((9 <=? n) && (n <=? 13)) || (n =? 32) || (n =? 133) || (n =? 160))%N.

Fixpoint int_lstrip (s : string) : string :=
  match s with
  | EmptyString => EmptyString
  | String c s' => if is_int_space c then int_lstrip s' else s
  end.

Fixpoint int_rstrip (s : string) : string :=
  match s with
  | EmptyString => EmptyString
  | String c s' =>
      match int_rstrip s' with
      | EmptyString =>
          if is_int_space c then EmptyString else String c EmptyString
      | r => String c r
      end
  end.

(** [int(s)] for a string argument, base 10. *)
Definition py_int (s : string) : res Z :=
  let body (t : string) (sign : Z) :=
    match int_digits t 0 false with
    | Some n => Ok (sign * n)
    | None => Err ValueError
    end in
  match int_rstrip (int_lstrip s) with
  | String "-" t => body t (-1)
  | String "+" t => body t 1
  | t => body t 1
  end.

(** ** The score object handed to [compute_EER] *)

Module Scores.
(** The attributes of the score object that [compute_EER] reads. *)
Record t : Type := mk {
  modelset : list string;
  segset : list string;
  scoremat : list (list float)
}.
End Scores.

(** [numpy.where(xs == x)[0]]: the positions of [x] in [xs], ascending. *)
Fixpoint where_eq (xs : list string) (x : string) (i : nat) : list nat :=
  match xs with
  | [] => []
  | y :: ys =>
      if String.eqb y x then i :: where_eq ys x (S i) else where_eq ys x (S i)
  end.

(** [scoremat[i, j]]. *)
Definition index2 {A} (m : list (list A)) (i j : nat) : res A :=
  row ← index m i; index row j.

(** ** [compute_EER] *)

(** The lists [compute_EER] grows while it reads the trial file. *)
Record eer_lists : Type := mk_eer_lists {
  ids : list string;
  labels : list Z;
  positive_scores : list float;
  negative_scores : list float
}.

Definition eer_init : eer_lists := mk_eer_lists [] [] [] [].

(** [line.split(" ")[k].rstrip().split(".")[0].strip()] *)
Definition trial_field (line : string) (k : nat) : res string :=
  f ← index (py_split " " line) k;
  w ← index (py_split "." (py_rstrip f)) 0;
  mret (py_strip w).

(** The three assignments at the top of the loop body. *)
Definition parse_trial (line : string) : res (Z * string * string) :=
  l ← trial_field line 0;
  lab ← py_int l;
  enrol_id ← trial_field line 1;
  test_id ← trial_field line 2;
  mret (lab, enrol_id, test_id).

(** The two index lookups and the read of the score. *)
Definition lookup_score (scores_plda : Scores.t) (enrol_id test_id : string)
  : res (nat * nat * float) :=
  i ← index (where_eq (Scores.modelset scores_plda) enrol_id 0) 0;
  j ← index (where_eq (Scores.segset scores_plda) test_id 0) 0;
  s ← index2 (Scores.scoremat scores_plda) i j;
  mret (i, j, s).

(** One iteration of the loop over the lines of the trial file. *)
Definition eer_step (scores_plda : Scores.t) (st : eer_lists) (line : string)
  : res eer_lists :=
  '(lab, enrol_id, test_id) ← parse_trial line;
  '(_, _, s) ← lookup_score scores_plda enrol_id test_id;
  let labels' := labels st ++ [lab] in
  let ids' := ids st ++ [(enrol_id +:+ "<>" +:+ test_id)%string] in
  if (lab =? 1)%Z
  then mret (mk_eer_lists ids' labels' (positive_scores st ++ [s])
               (negative_scores st))
  else mret (mk_eer_lists ids' labels' (positive_scores st)
               (negative_scores st ++ [s])).

(** The loop: the first line that raises ends it. *)
Fixpoint eer_loop (scores_plda : Scores.t) (st : eer_lists)
    (lines : list string) : res eer_lists :=
  match lines with
  | [] => Ok st
  | line :: rest =>
      st' ← eer_step scores_plda st line; eer_loop scores_plda st' rest
  end.

(** A value [compute_EER] can hand to its caller. *)
Inductive pyval : Type :=
| VFloat (x : float)
| VTuple (xs : list float).

Section ComputeEER.

(** [speechbrain.utils.metric_stats.EER], which the script imports: it
    receives the positive and the negative scores and returns two floats,
    the error rate and its threshold, or raises. *)
Variable EER : list float → list float → res (float * float).

(** [compute_EER(scores_plda)], reading the lines [gt] of
    [<data_folder>/meta/veri_test.txt]. *)
Definition compute_EER (scores_plda : Scores.t) (gt : list string)
  : res pyval :=
  st ← eer_loop scores_plda eer_init gt;
  '(eer, th) ← EER (positive_scores st) (negative_scores st);
  mret (VFloat eer).

End ComputeEER.

(** ** Arrays *)

(** A numpy array or torch tensor of floats: its shape and its cells in
    row-major order.  [.cpu()] and [.numpy()] keep both. *)
Record ndarray : Type := mk_ndarray {
  shape : list nat;
  data : list float
}.

(** [numpy.empty(shape=[0, d])]: no cell to fill. *)
Definition np_empty (d : nat) : ndarray := mk_ndarray [0%nat; d] [].

(** [torch.ones(n)] *)
Definition ones (n : nat) : ndarray := mk_ndarray [n] (replicate n 1%float).

(** [t.squeeze()]: every dimension of size one is removed. *)
Definition squeeze (t : ndarray) : ndarray :=
  mk_ndarray (filter (λ d, d ≠ 1%nat) (shape t)) (data t).

(** [t.squeeze(dim)]: the dimension is removed when its size is one. *)
Definition squeeze_dim (dim : nat) (t : ndarray) : res ndarray :=
  match shape t !! dim with
  | None => Err IndexError
  | Some d =>
      if (d =? 1)%nat then Ok (mk_ndarray (delete dim (shape t)) (data t))
      else Ok t
  end.

(** [numpy.concatenate((a, b), axis=0)]: both arrays need at least one
    dimension and the same shape after the first one. *)
Definition concatenate (a b : ndarray) : res ndarray :=
  match shape a, shape b with
  | n :: ra, m :: rb =>
      if bool_decide (ra = rb)
      then Ok (mk_ndarray ((n + m)%nat :: ra) (data a ++ data b))
      else Err ValueError
  | _, _ => Err ValueError
  end.

(** [numpy.array(rows)] for a list of equally long rows. *)
Definition np_array (rows : list (list float)) : ndarray :=
  match rows with
  | [] => mk_ndarray [0%nat] []
  | r :: _ => mk_ndarray [length rows; length r] (concat rows)
  end.

(** Row [k] of a two-dimensional array. *)
Definition row_at (t : ndarray) (k : nat) : list float :=
  match shape t with
  | [_; d] => take d (drop (k * d) (data t))
  | _ => []
  end.

(** The rows of a two-dimensional array, in order. *)
Definition rows (t : ndarray) : list (list float) :=
  match shape t with
  | [n; _] => row_at t <$> seq 0 n
  | _ => []
  end.

(** ** Stat objects, trial indexes and the files that cache them *)

Module StatObject_SB.
(** A stat object: the six keyword arguments [StatObject_SB] is built
    from, which are its attributes.  [start] and [stop] hold [None] or a
    frame number. *)
Record t : Type := mk {
  modelset : list string;
  segset : list string;
  start : list (option Z);
  stop : list (option Z);
  stat0 : ndarray;
  stat1 : ndarray
}.
End StatObject_SB.

Module Ndx.
(** A trial index: its model and segment identities. *)
Record t : Type := mk {
  modelset : list string;
  segset : list string
}.
End Ndx.

(** An object [pickle] can store and load back. *)
Inductive pyobj : Type :=
| OStat (o : StatObject_SB.t)
| ONdx (n : Ndx.t)
| OOther (repr : string).

(** [o.modelset] *)
Definition attr_modelset (o : pyobj) : res (list string) :=
  match o with
  | OStat s => Ok (StatObject_SB.modelset s)
  | ONdx n => Ok (Ndx.modelset n)
  | OOther _ => Err AttributeError
  end.

(** What a path names: a regular file, given by what [pickle.load]
    does on its bytes (it returns the object they are the pickle of, or
    raises), or a directory. *)
Inductive node : Type :=
| File (content : res pyobj)
| Dir.

Abbreviation filesystem := (gmap string node).

(** [os.path.isfile(path)] *)
Definition isfile (fs : filesystem) (path : string) : bool :=
  match fs !! path with
  | Some (File _) => true
  | _ => false
  end.

(** [os.path.exists(path)] *)
Definition path_exists (fs : filesystem) (path : string) : bool :=
  match fs !! path with
  | Some _ => true
  | None => false
  end.

(** [open(path, "rb")] followed by [pickle.load]. *)
Definition pickle_load (fs : filesystem) (path : string) : res pyobj :=
  match fs !! path with
  | Some (File content) => content
  | Some Dir => Err IsADirectoryError
  | None => Err FileNotFoundError
  end.

(** Modelled from the spec: [save_stat_object] and [save_ndx_object] are
    methods of classes the script imports.  They persist the object at
    the path so that loading gives it back; a directory cannot be
    written to. *)
Definition save_object (o : pyobj) (path : string) (fs : filesystem)
  : res filesystem :=
  match fs !! path with
  | Some Dir => Err IsADirectoryError
  | _ => Ok (<[path := File (Ok o)]> fs)
  end.

(** ** Embedding extraction *)

(** The entries of the hyperparameter dictionary [params] that the
    embedding code reads.  The four modules map tensors to tensors. *)
Record Params : Type := mk_params {
  emb_dim : nat;
  compute_features : ndarray → ndarray;
  mean_var_norm : ndarray → ndarray → ndarray;
  embedding_model : ndarray → ndarray → ndarray;
  mean_var_norm_emb : ndarray → ndarray → ndarray
}.

(** A batch of the enrolment or test loader: [wav[0]] is
    [(ids, wavs, lens)]. *)
Record batch : Type := mk_batch {
  batch_ids : list string;
  batch_wavs : ndarray;
  batch_lens : ndarray
}.

(** A batch of the training loader: [((_, wav, lens), (snt_id, spk_id, _))]. *)
Record train_batch : Type := mk_train_batch {
  train_wav : ndarray;
  train_lens : ndarray;
  train_snt_id : list string;
  train_spk_id : list (list Z)
}.

Section Recipe.

Variable params : Params.

(** [speechbrain.data_io.data_io.convert_index_to_lab], applied to the
    label dictionary of the training loader: the labels of each row of
    speaker indexes. *)
Variable convert_index_to_lab : list (list Z) → list (list string).

(** The constructor [Ndx(models=..., testsegs=...)], which may raise. *)
Variable Ndx_new : list string → list string → res Ndx.t.

(** [compute_embeddings(wavs, lens)] *)
Definition compute_embeddings (wavs lens : ndarray) : res ndarray :=
  let feats := compute_features params wavs in
  let feats := mean_var_norm params feats lens in
  let emb := embedding_model params feats lens in
  n ← index (shape emb) 0;
  mret (mean_var_norm_emb params emb (ones n)).

(** The loop of [emb_computation_loop] over the batches of the loader. *)
Fixpoint emb_loop (t : list batch) (modelset segset : list string)
    (embeddings : ndarray) : res (list string * list string * ndarray) :=
  match t with
  | [] => Ok (modelset, segset, embeddings)
  | wav :: t' =>
      let mod_ := batch_ids wav in
      let seg := batch_ids wav in
      let modelset := modelset ++ mod_ in
      let segset := segset ++ seg in
      embs ← compute_embeddings (batch_wavs wav) (batch_lens wav);
      let xv := squeeze embs in
      embeddings ← concatenate embeddings xv;
      emb_loop t' modelset segset embeddings
  end.

(** The stat object built from what a loop collected: [start], [stop] and
    [stat0] are sized by [embeddings.shape[0]]. *)
Definition make_stat_object (modelset segset : list string)
    (embeddings : ndarray) : res StatObject_SB.t :=
  n ← index (shape embeddings) 0;
  let s := replicate n (@None Z) in
  let b := np_array (replicate n [1%float]) in
  mret (StatObject_SB.mk modelset segset s s b embeddings).

(** The branch of [emb_computation_loop] that extracts the embeddings,
    up to the construction of the stat object. *)
Definition emb_stat_object (set_loader : list batch) : res StatObject_SB.t :=
  '(modelset, segset, embeddings) ←
    emb_loop set_loader [] [] (np_empty (emb_dim params));
  make_stat_object modelset segset embeddings.

(** [emb_computation_loop(split, set_loader, stat_file)], threading the
    file system. *)
Definition emb_computation_loop (split : string) (set_loader : list batch)
    (stat_file : string) (fs : filesystem) : res (pyobj * filesystem) :=
  if negb (isfile fs stat_file) then
    stat_obj ← emb_stat_object set_loader;
    fs' ← save_object (OStat stat_obj) stat_file fs;
    mret (OStat stat_obj, fs')
  else
    stat_obj ← pickle_load fs stat_file;
    mret (stat_obj, fs).

(** [[sid[0] for sid in spk_id_str]] *)
Fixpoint first_labels (spk_id_str : list (list string)) : res (list string) :=
  match spk_id_str with
  | [] => Ok []
  | sid :: rest =>
      l ← index sid 0; ls ← first_labels rest; mret (l :: ls)
  end.

(** The loop of the script over the batches of the training loader. *)
Fixpoint train_loop (t : list train_batch) (modelset segset : list string)
    (embeddings : ndarray) : res (list string * list string * ndarray) :=
  match t with
  | [] => Ok (modelset, segset, embeddings)
  | b :: t' =>
      let spk_id_str := convert_index_to_lab (train_spk_id b) in
      spk_ids ← first_labels spk_id_str;
      let modelset := modelset ++ spk_ids in
      let segset := segset ++ train_snt_id b in
      emb ← compute_embeddings (train_wav b) (train_lens b);
      xv ← squeeze_dim 1 emb;
      embeddings ← concatenate embeddings xv;
      train_loop t' modelset segset embeddings
  end.

(** The training branch of the script that extracts the embeddings, up
    to the construction of the stat object. *)
Definition train_stat_object (train_set : list train_batch)
  : res StatObject_SB.t :=
  '(modelset, segset, embeddings) ←
    train_loop train_set [] [] (np_empty (emb_dim params));
  make_stat_object modelset segset embeddings.

(** The block of the script that computes or loads the training stat
    object at [xv_file]. *)
Definition train_embeddings (train_set : list train_batch)
    (xv_file : string) (fs : filesystem) : res (pyobj * filesystem) :=
  if negb (path_exists fs xv_file) then
    embeddings_stat ← train_stat_object train_set;
    fs' ← save_object (OStat embeddings_stat) xv_file fs;
    mret (OStat embeddings_stat, fs')
  else
    embeddings_stat ← pickle_load fs xv_file;
    mret (embeddings_stat, fs).

(** The trial index built from the enrolment and test objects. *)
Definition make_ndx (enrol_obj test_obj : pyobj) : res Ndx.t :=
  models ← attr_modelset enrol_obj;
  testsegs ← attr_modelset test_obj;
  Ndx_new models testsegs.

(** The block of the script that prepares or loads the trial index at
    [ndx_file]. *)
Definition prepare_ndx (enrol_obj test_obj : pyobj) (ndx_file : string)
    (fs : filesystem) : res (pyobj * filesystem) :=
  if negb (isfile fs ndx_file) then
    ndx_obj ← make_ndx enrol_obj test_obj;
    fs' ← save_object (ONdx ndx_obj) ndx_file fs;
    mret (ONdx ndx_obj, fs')
  else
    ndx_obj ← pickle_load fs ndx_file;
    mret (ndx_obj, fs).

End Recipe.
(** [c] occurs in [s]. *)
Fixpoint contains (c : ascii) (s : string) : bool :=
  match s with
  | EmptyString => false
  | String d s' => Ascii.eqb d c || contains c s'
  end.

(** [x] is at position [i] of [xs] and at no earlier position. *)
Definition first_at (xs : list string) (x : string) (i : nat) : Prop :=
  xs !! i = Some x ∧ ∀ k, (k < i)%nat → xs !! k ≠ Some x.

(** The text of [s] before its first [c]; all of [s] when it has none. *)
Fixpoint before (c : ascii) (s : string) : string :=
  match s with
  | EmptyString => EmptyString
  | String d s' => if Ascii.eqb d c then EmptyString else String d (before c s')
  end.

(** ** Notions the statements below use *)

#[global] Instance res_fmap : FMap res := fun _ _ f m =>
  match m with
  | Ok a => Ok (f a)
  | Err e => Err e
  end.

(** The extractor answers the batch [wav] with the vectors [vs], one per
    identity and each of [emb_dim] cells, laid out as a tensor of shape
    [[B, 1, emb_dim]]. *)
Definition delivers (params : Params) (wav : batch) (vs : list (list float))
  : Prop :=
  length vs = length (batch_ids wav)
  ∧ Forall (λ v, length v = emb_dim params) vs
  ∧ compute_embeddings params (batch_wavs wav) (batch_lens wav)
    = Ok (mk_ndarray [length vs; 1%nat; emb_dim params] (concat vs)).

(** The utterances a loader feeds in, in arrival order: each identity
    with the vector the extractor gave it. *)
Definition utterances (set_loader : list batch) (vss : list (list (list float)))
  : list (string * list float) :=
  zip (concat (batch_ids <$> set_loader)) (concat vss).

(** The records of a stat object, in order: identity, label and vector. *)
Definition records (o : StatObject_SB.t)
  : list (string * string * list float) :=
  zip (zip (StatObject_SB.segset o) (StatObject_SB.modelset o))
    (rows (StatObject_SB.stat1 o)).

(** The record of an utterance whose label is its identity. *)
Definition self_labelled (u : string * list float)
  : string * string * list float :=
  (u.1, u.1, u.2).

(** Every record has [None] for [start] and [stop] and the single value
    1.0 for [stat0]; there is one such record per row of [stat1]. *)
Definition unit_stats (o : StatObject_SB.t) : Prop :=
  ∃ n, index (shape (StatObject_SB.stat1 o)) 0 = Ok n
    ∧ length (StatObject_SB.start o) = n
    ∧ length (StatObject_SB.stop o) = n
    ∧ length (rows (StatObject_SB.stat0 o)) = n
    ∧ ∀ k, (k < n)%nat →
        StatObject_SB.start o !! k = Some None
        ∧ StatObject_SB.stop o !! k = Some None
        ∧ rows (StatObject_SB.stat0 o) !! k = Some [1%float].

(** The cache rule in the words of the specification: the artifact at
    [path] is used iff the file exists.  When nothing is there it is
    recomputed and saved; otherwise what the file holds is loaded and
    used as it is. *)
Definition cached_by_existence (recompute : res pyobj) (path : string)
    (fs : filesystem) : res (pyobj * filesystem) :=
  match fs !! path with
  | None => o ← recompute; mret (o, <[path := File (Ok o)]> fs)
  | Some _ => o ← pickle_load fs path; mret (o, fs)
  end.

(** No batch holds a single utterance, and the vectors have more than
    one cell unless there is no batch at all. *)
Definition stackable (params : Params) (vss : list (list (list float)))
  : Prop :=
  (vss = [] ∨ emb_dim params ≠ 1%nat) ∧ Forall (λ vs, length vs ≠ 1%nat) vss.

(** ** Sample data *)

(** Hyperparameters with vectors of two cells: the sample extractor lays
    the rows of its input out as a tensor of shape [[B, 1, D]]. *)
Definition sample_params : Params :=
  mk_params 2 (λ wavs, wavs) (λ feats _, feats)
    (λ feats _,
       match shape feats with
       | [b; d] => mk_ndarray [b; 1%nat; d] (data feats)
       | _ => feats
       end)
    (λ emb _, emb).

(** A batch of the sample loaders: identities and two cells for each. *)
Definition sample_batch (ids : list string) (cells : list float) : batch :=
  mk_batch ids (mk_ndarray [length ids; 2%nat] cells) (ones (length ids)).

Definition sample_loader : list batch :=
  [sample_batch ["u1"; "u2"] [1; 2; 3; 4]%float;
   sample_batch ["u3"; "u4"] [5; 6; 7; 8]%float].

Definition sample_vectors : list (list (list float)) :=
  [[[1; 2]; [3; 4]]; [[5; 6]; [7; 8]]]%float.

(** The same utterances, the second batch arriving first. *)
Definition sample_loader_swapped : list batch :=
  [sample_batch ["u3"; "u4"] [5; 6; 7; 8]%float;
   sample_batch ["u1"; "u2"] [1; 2; 3; 4]%float].

Definition sample_vectors_swapped : list (list (list float)) :=
  [[[5; 6]; [7; 8]]; [[1; 2]; [3; 4]]]%float.

Definition sample_stat : StatObject_SB.t :=
  StatObject_SB.mk ["u1"; "u2"; "u3"; "u4"] ["u1"; "u2"; "u3"; "u4"]
    [None; None; None; None] [None; None; None; None]
    (mk_ndarray [4%nat; 1%nat] [1; 1; 1; 1]%float)
    (mk_ndarray [4%nat; 2%nat] [1; 2; 3; 4; 5; 6; 7; 8]%float).

Definition sample_stat_swapped : StatObject_SB.t :=
  StatObject_SB.mk ["u3"; "u4"; "u1"; "u2"] ["u3"; "u4"; "u1"; "u2"]
    [None; None; None; None] [None; None; None; None]
    (mk_ndarray [4%nat; 1%nat] [1; 1; 1; 1]%float)
    (mk_ndarray [4%nat; 2%nat] [5; 6; 7; 8; 1; 2; 3; 4]%float).

(** A training loader whose only batch holds a single utterance. *)
Definition sample_train_set : list train_batch :=
  [mk_train_batch (mk_ndarray [1%nat; 2%nat] [1; 2]%float) (ones 1)
     ["spkA-utt1"] [[0]]].

(** A label dictionary for the sample training loader. *)
Definition sample_index_to_lab (spk_id : list (list Z))
  : list (list string) :=
  (λ r : list Z, (λ i : Z, if (i =? 0)%Z then "spkA" else "spkB") <$> r)
    <$> spk_id.

(** A trial index constructor that keeps the lists it is given. *)
Definition sample_Ndx (models testsegs : list string) : res Ndx.t :=
  Ok (Ndx.mk models testsegs).

(** ** The rest of the script *)

Definition KeyError : exn := "KeyError"%string.

(** [d[k]] on a dictionary. *)
Definition getitem {V} (d : gmap string V) (k : string) : res V :=
  match d !! k with
  | Some v => Ok v
  | None => Err KeyError
  end.

(** [data_dict[x][key]["data"]] *)
Definition utt_data (data_dict : gmap string (gmap string (gmap string string)))
    (x key : string) : res string :=
  entry ← getitem data_dict x;
  w ← getitem entry key;
  getitem w "data".

(** A list comprehension [[f(x) for x in xs]] whose body may raise. *)
Fixpoint comprehension {A B} (f : A → res B) (xs : list A) : res (list B) :=
  match xs with
  | [] => Ok []
  | x :: rest => y ← f x; ys ← comprehension f rest; mret (y :: ys)
  end.

(** [get_utt_ids_for_test(ids, data_dict)] *)
Definition get_utt_ids_for_test (ids : list string)
    (data_dict : gmap string (gmap string (gmap string string)))
  : res (list string * list string) :=
  mod_ ← comprehension (λ x, utt_data data_dict x "wav1") ids;
  seg ← comprehension (λ x, utt_data data_dict x "wav2") ids;
  mret (mod_, seg).

(** [s.startswith(c)] and [s.endswith(c)] for a one-character [c]. *)
Definition startswith (c : ascii) (s : string) : bool :=
  match s with
  | String d _ => Ascii.eqb d c
  | EmptyString => false
  end.

Fixpoint endswith (c : ascii) (s : string) : bool :=
  match s with
  | EmptyString => false
  | String d EmptyString => Ascii.eqb d c
  | String _ s' => endswith c s'
  end.

(** [os.path.join(a, b)] on a POSIX system. *)
Definition path_join (a b : string) : string :=
  if startswith "/" b then b
  else if match a with EmptyString => true | _ => endswith "/" a end
       then a +:+ b
       else a +:+ "/" +:+ b.

(** The four cache files of the script, under [params["save_folder"]]. *)
Definition xv_file (save_folder : string) : string :=
  path_join save_folder "VoxCeleb1_train_embeddings_stat_obj.pkl".

Definition enrol_stat_file (save_folder : string) : string :=
  path_join save_folder "stat_enrol.pkl".

Definition test_stat_file (save_folder : string) : string :=
  path_join save_folder "stat_test.pkl".

Definition ndx_file (save_folder : string) : string :=
  path_join save_folder "ndx.pkl".

(** The attributes of [params["compute_plda"]] that the scoring reads
    once the model is trained. *)
Record PLDA : Type := mk_PLDA {
  plda_mean : ndarray;
  plda_F : ndarray;
  plda_Sigma : ndarray
}.

Section Main.

Variable params : Params.
Variable convert_index_to_lab : list (list Z) → list (list string).
Variable Ndx_new : list string → list string → res Ndx.t.
Variable EER : list float → list float → res (float * float).

(** [params["compute_plda"].plda(embeddings_stat)]: the training of the
    PLDA model, which may raise. *)
Variable compute_plda : pyobj → res PLDA.

(** [fast_PLDA_scoring(enrol, test, ndx, mean, F, Sigma)], which may
    raise. *)
Variable fast_PLDA_scoring :
  pyobj → pyobj → pyobj → ndarray → ndarray → ndarray → res Scores.t.

(** The script from the training embeddings to the error rate.  What
    comes before (arguments, experiment directory, data preparation,
    loading of the encoder) gives [params], the loaders, the trial file
    and the state of the save folder. *)
Definition main (save_folder : string) (train_set : list train_batch)
    (enrol_set test_set : list batch) (gt : list string) (fs : filesystem)
  : res (pyval * filesystem) :=
  '(embeddings_stat, fs) ←
    train_embeddings params convert_index_to_lab train_set
      (xv_file save_folder) fs;
  plda ← compute_plda embeddings_stat;
  '(enrol_obj, fs) ←
    emb_computation_loop params "enrol" enrol_set
      (enrol_stat_file save_folder) fs;
  '(test_obj, fs) ←
    emb_computation_loop params "test" test_set
      (test_stat_file save_folder) fs;
  '(ndx_obj, fs) ←
    prepare_ndx Ndx_new enrol_obj test_obj (ndx_file save_folder) fs;
  scores_plda ←
    fast_PLDA_scoring enrol_obj test_obj ndx_obj
      (plda_mean plda) (plda_F plda) (plda_Sigma plda);
  eer ← compute_EER EER scores_plda gt;
  mret (eer, fs).

End Main.

(** The extractor and the label dictionary answer the training batch [b]
    with the vectors [vl.1] and the speaker labels [vl.2], one of each
    per sentence. *)
Definition train_delivers (params : Params)
    (convert_index_to_lab : list (list Z) → list (list string))
    (b : train_batch) (vl : list (list float) * list string) : Prop :=
  length vl.1 = length (train_snt_id b)
  ∧ length vl.2 = length (train_snt_id b)
  ∧ Forall (λ v, length v = emb_dim params) vl.1
  ∧ compute_embeddings params (train_wav b) (train_lens b)
    = Ok (mk_ndarray [length vl.1; 1%nat; emb_dim params] (concat vl.1))
  ∧ first_labels (convert_index_to_lab (train_spk_id b)) = Ok vl.2.

(** A score object, a PLDA model and a scoring routine for the sample
    data. *)
Definition sample_scores : Scores.t :=
  Scores.mk ["u1"; "u2"] ["u3"; "u4"]
    [[0.5; -0.5]; [-0.25; 0.75]]%float.

Definition sample_plda (o : pyobj) : res PLDA :=
  match o with
  | OStat s => Ok (mk_PLDA (StatObject_SB.stat1 s) (ones 1) (ones 1))
  | _ => Err AttributeError
  end.

Definition sample_scoring (enrol test ndx : pyobj) (mean F Sigma : ndarray)
  : res Scores.t :=
  Ok sample_scores.

Definition sample_EER (pos neg : list float) : res (float * float) :=
  Ok (0.25%float, 0.5%float).

Definition sample_gt : list string :=
  ["1 u1.wav u3.wav"; "0 u1.wav u4.wav"; "0 u2.wav u3.wav"; "1 u2.wav u4.wav"].

Definition sample_enrol : list batch :=
  [sample_batch ["u1"; "u2"] [1; 2; 3; 4]%float].

Definition sample_test : list batch :=
  [sample_batch ["u3"; "u4"] [5; 6; 7; 8]%float].

(** The stat object of the sample training loader, the stat objects of
    the sample enrolment and test loaders, and the save folder after a
    run on them. *)
Definition sample_train_stat : StatObject_SB.t :=
  StatObject_SB.mk ["spkA"] ["spkA-utt1"] [None] [None]
    (mk_ndarray [1%nat; 1%nat] [1%float])
    (mk_ndarray [1%nat; 2%nat] [1; 2]%float).

Definition sample_enrol_stat : StatObject_SB.t :=
  StatObject_SB.mk ["u1"; "u2"] ["u1"; "u2"] [None; None] [None; None]
    (mk_ndarray [2%nat; 1%nat] [1; 1]%float)
    (mk_ndarray [2%nat; 2%nat] [1; 2; 3; 4]%float).

Definition sample_test_stat : StatObject_SB.t :=
  StatObject_SB.mk ["u3"; "u4"] ["u3"; "u4"] [None; None] [None; None]
    (mk_ndarray [2%nat; 1%nat] [1; 1]%float)
    (mk_ndarray [2%nat; 2%nat] [5; 6; 7; 8]%float).

Definition sample_files : filesystem :=
  <[ndx_file "save" := File (Ok (ONdx (Ndx.mk ["u1"; "u2"] ["u3"; "u4"])))]>
    (<[test_stat_file "save" := File (Ok (OStat sample_test_stat))]>
       (<[enrol_stat_file "save" := File (Ok (OStat sample_enrol_stat))]>
          (<[xv_file "save" := File (Ok (OStat sample_train_stat))]> ∅))).

(** A line of the trial list whose file references hold a directory, and
    a score object that lists both the bare file names and the
    identities with their directory. *)
Definition sample_trial_line : string :=
  "1" +:+ " " +:+ ("d/a" +:+ ".wav") +:+ " " +:+ ("d/b" +:+ ".wav
") +:+ "".

Definition sample_path_scores : Scores.t :=
  Scores.mk ["a"; "d/a"] ["b"; "d/b"] [[1; 2]; [3; 4]]%float.

(** ** The trial parser: facts about the string operations *)

Lemma bind_Ok {A B} (m : res A) (f : A → res B) (b : B) :
  m ≫= f = Ok b ↔ ∃ a, m = Ok a ∧ f a = Ok b.
Proof.
  destruct m as [a|e]; simpl; split.
  - intros H. by exists a.
  - by intros (a' & [= <-] & H).
  - intros H. discriminate H.
  - by intros (a' & [=] & _).
Qed.

Lemma py_split_nonempty (sep : ascii) (s : string) : py_split sep s ≠ [].
Proof.
  destruct s as [|c s]; simpl; [done|].
  destruct (Ascii.eqb c sep); [done|].
  by destruct (py_split sep s).
Qed.

Lemma py_split_no_sep (sep : ascii) (s : string) :
  contains sep s = false → py_split sep s = [s].
Proof.
  induction s as [|c s IH]; simpl; [done|].
  intros [Hc Hs]%orb_false_iff. rewrite Hc, (IH Hs). done.
Qed.

Lemma py_split_app (sep : ascii) (p r : string) :
  contains sep p = false →
  py_split sep (p +:+ String sep r) = p :: py_split sep r.
Proof.
  induction p as [|c p IH]; simpl.
  - intros _. by rewrite Ascii.eqb_refl.
  - intros [Hc Hp]%orb_false_iff. rewrite Hc, (IH Hp). done.
Qed.

Lemma py_rstrip_app_nonspace (p r : string) (c : ascii) :
  is_space c = false →
  py_rstrip (p +:+ String c r) = p +:+ String c (py_rstrip r).
Proof.
  intros Hc. induction p as [|d p IH]; simpl.
  - rewrite Hc. by destruct (py_rstrip r).
  - rewrite IH. by destruct p.
Qed.

Lemma py_rstrip_no_space (s : string) :
  (∀ c, contains c s = true → is_space c = false) → py_rstrip s = s.
Proof.
  induction s as [|d s IH]; simpl; [done|].
  intros H. rewrite IH.
  - destruct s; [|done].
    rewrite (H d); [done|]. by rewrite Ascii.eqb_refl.
  - intros c Hc. apply H. rewrite Hc. by rewrite orb_true_r.
Qed.

Lemma py_strip_no_space (s : string) :
  (∀ c, contains c s = true → is_space c = false) → py_strip s = s.
Proof.
  intros H. unfold py_strip.
  assert (py_lstrip s = s) as ->; [|by apply py_rstrip_no_space].
  destruct s as [|d s]; simpl; [done|].
  rewrite (H d); [done|]. simpl. by rewrite Ascii.eqb_refl.
Qed.

Lemma py_rstrip_cons (d : ascii) (s : string) :
  py_rstrip (String d s)
  = match py_rstrip s with
    | EmptyString => if is_space d then EmptyString else String d EmptyString
    | r => String d r
    end.
Proof. done. Qed.

Lemma py_rstrip_idemp (s : string) : py_rstrip (py_rstrip s) = py_rstrip s.
Proof.
  induction s as [|d s IH]; [done|].
  rewrite py_rstrip_cons.
  destruct (py_rstrip s) as [|e r] eqn:Hr.
  - destruct (is_space d) eqn:Hd; [done|]. simpl. by rewrite Hd.
  - rewrite py_rstrip_cons, IH. done.
Qed.

Lemma py_lstrip_rstrip (s : string) :
  py_lstrip (py_rstrip s) = py_rstrip (py_lstrip s).
Proof.
  induction s as [|d s IH]; [done|].
  rewrite py_rstrip_cons. simpl py_lstrip at 2.
  destruct (is_space d) eqn:Hd.
  - rewrite <- IH. destruct (py_rstrip s) as [|e r]; [done|].
    simpl. by rewrite Hd.
  - rewrite py_rstrip_cons.
    destruct (py_rstrip s) as [|e r]; simpl; by rewrite Hd.
Qed.

Lemma py_strip_rstrip (s : string) : py_strip (py_rstrip s) = py_strip s.
Proof.
  unfold py_strip. by rewrite py_lstrip_rstrip, py_rstrip_idemp.
Qed.

Lemma before_no_sep (c : ascii) (s : string) :
  contains c s = false → before c s = s.
Proof.
  induction s as [|d s IH]; simpl; [done|].
  intros [Hd Hs]%orb_false_iff. by rewrite Hd, IH.
Qed.

Lemma before_app (c : ascii) (p r : string) :
  contains c p = false → before c (p +:+ String c r) = p.
Proof.
  induction p as [|d p IH]; simpl.
  - by rewrite Ascii.eqb_refl.
  - intros [Hd Hp]%orb_false_iff. by rewrite Hd, IH.
Qed.

Lemma contains_split (c : ascii) (s : string) :
  contains c s = true →
  ∃ p r, s = p +:+ String c r ∧ contains c p = false.
Proof.
  induction s as [|d s IH]; simpl; [done|].
  destruct (Ascii.eqb d c) eqn:Hd; simpl.
  - intros _. apply Ascii.eqb_eq in Hd as ->. by exists EmptyString, s.
  - intros (p & r & -> & Hp)%IH. exists (String d p), r. simpl.
    by rewrite Hd, Hp.
Qed.

Lemma contains_rstrip (c : ascii) (s : string) :
  contains c (py_rstrip s) = true → contains c s = true.
Proof.
  induction s as [|d s IH]; [done|].
  rewrite py_rstrip_cons. simpl contains at 2.
  destruct (py_rstrip s) as [|e r].
  - destruct (is_space d); simpl; [done|].
    rewrite orb_false_r. intros ->. done.
  - simpl in *. destruct (Ascii.eqb d c); [done|]. simpl. apply IH.
Qed.

Lemma head_py_split (c : ascii) (s : string) :
  index (py_split c s) 0 = Ok (before c s).
Proof.
  induction s as [|d s IH]; simpl; [done|].
  destruct (Ascii.eqb d c); [done|].
  destruct (py_split c s) as [|w ws]; [done|].
  unfold index in *. simpl in *. by injection IH as ->.
Qed.

(** Cutting at the first [c] and stripping gives the same text whether or
    not trailing whitespace was removed first. *)
Lemma strip_before_rstrip (c : ascii) (f : string) :
  is_space c = false →
  py_strip (before c (py_rstrip f)) = py_strip (before c f).
Proof.
  intros Hc. destruct (contains c f) eqn:Hf.
  - apply contains_split in Hf as (p & r & -> & Hp).
    by rewrite py_rstrip_app_nonspace, !before_app.
  - rewrite (before_no_sep c f) by done.
    rewrite before_no_sep; [apply py_strip_rstrip|].
    destruct (contains c (py_rstrip f)) eqn:Hr; [|done].
    apply contains_rstrip in Hr. congruence.
Qed.

Lemma append_empty_r (s : string) : s +:+ EmptyString = s.
Proof.
  induction s as [|d s IH]; [done|].
  change (String d (s +:+ EmptyString) = String d s). by rewrite IH.
Qed.

(** The field of a line that ends at the line's end or at a space. *)
Lemma py_split_field (f tail : string) :
  contains " " f = false →
  tail = EmptyString ∨ (∃ r, tail = String " " r) →
  ∃ ws, py_split " " (f +:+ tail) = f :: ws.
Proof.
  intros Hf [->|[r ->]].
  - exists []. rewrite append_empty_r. by apply py_split_no_sep.
  - eexists. by apply py_split_app.
Qed.

Lemma trial_field_at (line : string) (k : nat) (f : string) :
  py_split " " line !! k = Some f →
  trial_field line k = Ok (py_strip (before "." f)).
Proof.
  intros Hk. unfold trial_field.
  assert (index (py_split " " line) k = Ok f) as ->.
  { unfold index. by rewrite Hk. }
  simpl. rewrite head_py_split. simpl. f_equal.
  by apply strip_before_rstrip.
Qed.

(** ** The index lookups of [compute_EER] *)

Lemma first_at_cons_ne (y x : string) (ys : list string) (k : nat) :
  y ≠ x → first_at (y :: ys) x (S k) ↔ first_at ys x k.
Proof.
  intros Hy. unfold first_at. simpl. split.
  - intros [Hk Hlt]. split; [done|]. intros k' Hk'.
    apply (Hlt (S k')). lia.
  - intros [Hk Hlt]. split; [done|]. intros [|k'] Hk'; simpl.
    + congruence.
    + apply Hlt. lia.
Qed.

Lemma first_at_cons_eq (x : string) (ys : list string) (k : nat) :
  first_at (x :: ys) x k ↔ k = 0%nat.
Proof.
  unfold first_at. split.
  - intros [_ Hlt]. destruct k as [|k]; [done|].
    exfalso. apply (Hlt 0%nat); [lia|done].
  - intros ->. split; [done|]. intros k Hk. lia.
Qed.

Lemma where_eq_head (xs : list string) (x : string) (n i : nat) :
  index (where_eq xs x n) 0 = Ok i ↔ ∃ k, i = (n + k)%nat ∧ first_at xs x k.
Proof.
  revert n. induction xs as [|y ys IH]; intros n; simpl.
  - split; [done|]. by intros (k & _ & [Hk _]).
  - destruct (String.eqb_spec y x) as [->|Hne].
    + unfold index. simpl. split.
      * intros [= <-]. exists 0%nat. split; [lia|]. by apply first_at_cons_eq.
      * intros (k & -> & ->%first_at_cons_eq). f_equal. lia.
    + rewrite IH. split.
      * intros (k & -> & Hk). exists (S k). split; [lia|].
        by apply first_at_cons_ne.
      * intros ([|k] & -> & Hk).
        -- destruct Hk as [[= ?] _]. done.
        -- exists k. split; [lia|]. by apply first_at_cons_ne in Hk.
Qed.

Lemma where_eq_first (xs : list string) (x : string) (i : nat) :
  index (where_eq xs x 0) 0 = Ok i ↔ first_at xs x i.
Proof.
  rewrite where_eq_head. split.
  - by intros (k & -> & Hk).
  - intros Hi. by exists i.
Qed.

Lemma where_eq_absent (xs : list string) (x : string) :
  x ∉ xs → index (where_eq xs x 0) 0 = Err IndexError.
Proof.
  intros Hx. destruct (index (where_eq xs x 0) 0) as [i|e] eqn:Hi.
  - apply where_eq_first in Hi as [Hi _].
    exfalso. apply Hx. by eapply list_elem_of_lookup_2.
  - unfold index in Hi. destruct (where_eq xs x 0 !! 0%nat); [done|].
    by injection Hi as <-.
Qed.

Lemma lookup_score_first (sc : Scores.t) (e t : string) (i j : nat)
    (s : float) :
  lookup_score sc e t = Ok (i, j, s)
  ↔ first_at (Scores.modelset sc) e i ∧ first_at (Scores.segset sc) t j
    ∧ index2 (Scores.scoremat sc) i j = Ok s.
Proof.
  unfold lookup_score. rewrite <- !where_eq_first. split.
  - intros (i' & Hi & (j' & Hj & (s' & Hs & [= <- <- <-])%bind_Ok)%bind_Ok)%bind_Ok.
    done.
  - intros (-> & -> & Hs). simpl. by rewrite Hs.
Qed.

Lemma index_Err {A} (xs : list A) (k : nat) (e : exn) :
  index xs k = Err e → e = IndexError.
Proof. unfold index. destruct (xs !! k); [done|]. by intros [= <-]. Qed.

Lemma lookup_score_absent (sc : Scores.t) (e t : string) :
  e ∉ Scores.modelset sc ∨ t ∉ Scores.segset sc →
  lookup_score sc e t = Err IndexError.
Proof.
  unfold lookup_score. intros [He|Ht].
  - rewrite (where_eq_absent _ e) by done. reflexivity.
  - destruct (index (where_eq (Scores.modelset sc) e 0) 0) as [i|err] eqn:Hi.
    + simpl. rewrite (where_eq_absent _ t) by done. reflexivity.
    + apply index_Err in Hi as ->. reflexivity.
Qed.

(** ** One trial and the whole trial file *)

Lemma eer_step_found (sc : Scores.t) (st : eer_lists) (line : string)
    (lab : Z) (e t : string) (i j : nat) (s : float) :
  parse_trial line = Ok (lab, e, t) →
  lookup_score sc e t = Ok (i, j, s) →
  eer_step sc st line
  = Ok (mk_eer_lists (ids st ++ [e +:+ "<>" +:+ t]) (labels st ++ [lab])
          (if (lab =? 1)%Z then positive_scores st ++ [s]
           else positive_scores st)
          (if (lab =? 1)%Z then negative_scores st
           else negative_scores st ++ [s])).
Proof.
  intros Hp Hl. unfold eer_step. rewrite Hp. simpl. rewrite Hl. simpl.
  by destruct (lab =? 1)%Z.
Qed.

Lemma eer_step_absent (sc : Scores.t) (st : eer_lists) (line : string)
    (lab : Z) (e t : string) :
  parse_trial line = Ok (lab, e, t) →
  e ∉ Scores.modelset sc ∨ t ∉ Scores.segset sc →
  eer_step sc st line = Err IndexError.
Proof.
  intros Hp Habs. unfold eer_step. rewrite Hp. simpl.
  by rewrite lookup_score_absent.
Qed.

Lemma eer_loop_app (sc : Scores.t) (st : eer_lists) (pre post : list string) :
  eer_loop sc st (pre ++ post)
  = st' ← eer_loop sc st pre; eer_loop sc st' post.
Proof.
  revert st. induction pre as [|l pre IH]; intros st; simpl; [done|].
  destruct (eer_step sc st l) as [st'|err]; simpl; [apply IH|done].
Qed.

Lemma list_app_one_ne {A} (xs : list A) (x : A) : xs ≠ xs ++ [x].
Proof.
  intros H. apply (f_equal length) in H. rewrite length_app in H.
  simpl in H. lia.
Qed.

Lemma before_prefix (e x : string) :
  contains "." e = false →
  x = EmptyString ∨ (∃ r, x = String "." r) →
  before "." (e +:+ x) = e.
Proof.
  intros He [->|[r ->]].
  - rewrite append_empty_r. by apply before_no_sep.
  - by apply before_app.
Qed.

Lemma parse_trial_Ok (line : string) (lab : Z) (e t : string) :
  parse_trial line = Ok (lab, e, t)
  ↔ (trial_field line 0 ≫= py_int) = Ok lab
    ∧ trial_field line 1 = Ok e ∧ trial_field line 2 = Ok t.
Proof.
  unfold parse_trial. split.
  - intros (l & Hl & (lab' & Hlab & (e' & He & (t' & Ht & [= <- <- <-])
      %bind_Ok)%bind_Ok)%bind_Ok)%bind_Ok.
    rewrite Hl. done.
  - intros ((l & Hl & Hlab)%bind_Ok & He & Ht).
    rewrite Hl. simpl. rewrite Hlab. simpl. rewrite He. simpl.
    rewrite Ht. done.
Qed.

Lemma index2_lookup {A} (m : list (list A)) (i j : nat) (row : list A)
    (s : A) :
  m !! i = Some row → row !! j = Some s → index2 m i j = Ok s.
Proof. intros Hi Hj. unfold index2, index. rewrite Hi. simpl. by rewrite Hj. Qed.

(** ** The claims about [compute_EER] *)

(** C1 (as stated, refuted): the identities read from a line of the
    VoxCeleb trial list still hold their path separators, so a score
    object indexed by file names without their directories is never
    matched. *)
Lemma trial_ids_keep_path_separators :
  parse_trial
    "1 id10270/5r0dWxy17C8/00001.wav id10300/ize_eiCFEg0/00003.wav
"
  = Ok (1, "id10270/5r0dWxy17C8/00001", "id10300/ize_eiCFEg0/00003")
  ∧ contains "/" "id10270/5r0dWxy17C8/00001" = true
  ∧ contains "/" "id10300/ize_eiCFEg0/00003" = true
  ∧ eer_step (Scores.mk ["00001"] ["00003"] [[1%float]]) eer_init
      "1 id10270/5r0dWxy17C8/00001.wav id10300/ize_eiCFEg0/00003.wav
"
    = Err IndexError.
Proof. repeat split; reflexivity. Qed.

(** C1 (amended): on a line [l f1 f2 ...] whose fields are separated by
    single spaces, the enrolment and the test identity are the text of the
    second and of the third field before its first dot, with the white
    space around it removed; every other character of that text, a path
    separator included, is kept.  These identities are the ones looked
    up: the trial raises when one of them is not listed by the score
    object, and otherwise its score is the cell of the score matrix at
    their first positions in [modelset] and [segset]. *)
Theorem trial_ids_text_before_first_dot (sc : Scores.t) (st : eer_lists)
    (l e1 x1 e2 x2 tail : string) (lab : Z) :
  contains " " l = false →
  contains "." l = false →
  py_int (py_strip l) = Ok lab →
  contains " " (e1 +:+ x1) = false →
  contains "." e1 = false →
  x1 = EmptyString ∨ (∃ r, x1 = String "." r) →
  contains " " (e2 +:+ x2) = false →
  contains "." e2 = false →
  x2 = EmptyString ∨ (∃ r, x2 = String "." r) →
  tail = EmptyString ∨ (∃ r, tail = String " " r) →
  trial_field (l +:+ " " +:+ (e1 +:+ x1) +:+ " " +:+ (e2 +:+ x2) +:+ tail) 1
  = Ok (py_strip e1)
  ∧ trial_field (l +:+ " " +:+ (e1 +:+ x1) +:+ " " +:+ (e2 +:+ x2) +:+ tail) 2
    = Ok (py_strip e2)
  ∧ ((∀ c, contains c e1 = true → is_space c = false) → py_strip e1 = e1)
  ∧ ((∀ c, contains c e2 = true → is_space c = false) → py_strip e2 = e2)
  ∧ parse_trial
      (l +:+ " " +:+ (e1 +:+ x1) +:+ " " +:+ (e2 +:+ x2) +:+ tail)
    = Ok (lab, py_strip e1, py_strip e2)
  ∧ (py_strip e1 ∉ Scores.modelset sc ∨ py_strip e2 ∉ Scores.segset sc →
     eer_step sc st
       (l +:+ " " +:+ (e1 +:+ x1) +:+ " " +:+ (e2 +:+ x2) +:+ tail)
     = Err IndexError)
  ∧ (∀ i j row s,
       first_at (Scores.modelset sc) (py_strip e1) i →
       first_at (Scores.segset sc) (py_strip e2) j →
       Scores.scoremat sc !! i = Some row →
       row !! j = Some s →
       ∃ st',
         eer_step sc st
           (l +:+ " " +:+ (e1 +:+ x1) +:+ " " +:+ (e2 +:+ x2) +:+ tail)
         = Ok st'
         ∧ (lab = 1 ∧ positive_scores st' = positive_scores st ++ [s]
              ∧ negative_scores st' = negative_scores st
            ∨ lab ≠ 1 ∧ positive_scores st' = positive_scores st
              ∧ negative_scores st' = negative_scores st ++ [s])).
Proof.
  intros Hl Hld Hlab Hf1 He1 Hx1 Hf2 He2 Hx2 Htail.
  destruct (py_split_field (e2 +:+ x2) tail Hf2 Htail) as [ws Hws].
  assert (py_split " "
            (l +:+ " " +:+ (e1 +:+ x1) +:+ " " +:+ (e2 +:+ x2) +:+ tail)
          = l :: (e1 +:+ x1) :: (e2 +:+ x2) :: ws) as Hsplit.
  { change (py_split " " (l +:+ String " "
              ((e1 +:+ x1) +:+ String " " ((e2 +:+ x2) +:+ tail)))
            = l :: (e1 +:+ x1) :: (e2 +:+ x2) :: ws).
    by rewrite !py_split_app, Hws. }
  set (line := l +:+ " " +:+ (e1 +:+ x1) +:+ " " +:+ (e2 +:+ x2) +:+ tail)
    in *.
  assert (trial_field line 1 = Ok (py_strip e1)) as H1.
  { rewrite (trial_field_at _ 1 (e1 +:+ x1)); [|by rewrite Hsplit].
    by rewrite before_prefix. }
  assert (trial_field line 2 = Ok (py_strip e2)) as H2.
  { rewrite (trial_field_at _ 2 (e2 +:+ x2)); [|by rewrite Hsplit].
    by rewrite before_prefix. }
  assert (parse_trial line = Ok (lab, py_strip e1, py_strip e2)) as Hp.
  { apply parse_trial_Ok. split; [|done].
    rewrite (trial_field_at _ 0 l); [|by rewrite Hsplit].
    simpl. by rewrite before_no_sep. }
  split; [done|]. split; [done|].
  split; [apply py_strip_no_space|]. split; [apply py_strip_no_space|].
  split; [done|]. split.
  - intros Habs. by eapply eer_step_absent.
  - intros i j row s Hi Hj Hrow Hs.
    assert (lookup_score sc (py_strip e1) (py_strip e2) = Ok (i, j, s)) as Hlk.
    { apply lookup_score_first. repeat split; try apply Hi; try apply Hj.
      by eapply index2_lookup. }
    eexists. split; [by eapply eer_step_found|].
    simpl. destruct (Z.eqb_spec lab 1); [by left|by right].
Qed.

Lemma trial_ids_text_before_first_dot_witness :
  trial_field sample_trial_line 1 = Ok (py_strip "d/a")
  ∧ trial_field sample_trial_line 2 = Ok (py_strip "d/b")
  ∧ ((∀ c, contains c "d/a" = true → is_space c = false) →
     py_strip "d/a" = "d/a")
  ∧ ((∀ c, contains c "d/b" = true → is_space c = false) →
     py_strip "d/b" = "d/b")
  ∧ parse_trial sample_trial_line = Ok (1, py_strip "d/a", py_strip "d/b")
  ∧ (py_strip "d/a" ∉ Scores.modelset sample_path_scores
     ∨ py_strip "d/b" ∉ Scores.segset sample_path_scores →
     eer_step sample_path_scores eer_init sample_trial_line = Err IndexError)
  ∧ (∀ i j row s,
       first_at (Scores.modelset sample_path_scores) (py_strip "d/a") i →
       first_at (Scores.segset sample_path_scores) (py_strip "d/b") j →
       Scores.scoremat sample_path_scores !! i = Some row →
       row !! j = Some s →
       ∃ st',
         eer_step sample_path_scores eer_init sample_trial_line = Ok st'
         ∧ (1 = 1 ∧ positive_scores st' = positive_scores eer_init ++ [s]
              ∧ negative_scores st' = negative_scores eer_init
            ∨ 1 ≠ 1 ∧ positive_scores st' = positive_scores eer_init
              ∧ negative_scores st' = negative_scores eer_init ++ [s])).
Proof.
  apply (trial_ids_text_before_first_dot sample_path_scores eer_init
           "1" "d/a" ".wav" "d/b" ".wav
" "" 1).
  - reflexivity.
  - reflexivity.
  - reflexivity.
  - reflexivity.
  - reflexivity.
  - right. eexists. reflexivity.
  - reflexivity.
  - reflexivity.
  - right. eexists. reflexivity.
  - left. reflexivity.
Defined.

Example sample_trial_line_scored :
  eer_step sample_path_scores eer_init sample_trial_line
  = Ok (mk_eer_lists ["d/a<>d/b"] [1] [4%float] []).
Proof. reflexivity. Qed.

(** C2 (as stated, refuted): a trial whose test identity is missing from
    the score object makes [compute_EER] raise [IndexError], the error of
    indexing the empty array of matches; it is not the
    [TrialNotFoundError] of the specification. *)
Lemma absent_trial_raises_IndexError :
  compute_EER (λ _ _, Ok (0%float, 0%float))
    (Scores.mk ["a"] ["b"] [[0.5%float]]) ["1 a.wav zz.wav"]
  = Err IndexError
  ∧ IndexError ≠ TrialNotFoundError.
Proof. split; [reflexivity|discriminate]. Qed.

(** C2 (amended): when a line of the trial file names an enrolment or a
    test identity that the score object does not list, [compute_EER]
    raises and returns no error rate, so the trial is never skipped; the
    exception is [IndexError] whenever the lines before it were read
    without error and the label of the line is an integer. *)
Theorem absent_trial_fails (EER : list float → list float → res (float * float))
    (sc : Scores.t) (pre post : list string) (line e t : string) :
  trial_field line 1 = Ok e →
  trial_field line 2 = Ok t →
  e ∉ Scores.modelset sc ∨ t ∉ Scores.segset sc →
  (∃ err, compute_EER EER sc (pre ++ line :: post) = Err err)
  ∧ (∀ st lab,
       eer_loop sc eer_init pre = Ok st →
       trial_field line 0 ≫= py_int = Ok lab →
       compute_EER EER sc (pre ++ line :: post) = Err IndexError).
Proof.
  intros He Ht Habs. unfold compute_EER. rewrite eer_loop_app.
  assert (∀ st, ∃ err, eer_step sc st line = Err err) as Hstep.
  { intros st. destruct (parse_trial line) as [[[lab e'] t']|err] eqn:Hp.
    - exists IndexError. apply eer_step_absent with lab e' t'; [done|].
      apply parse_trial_Ok in Hp as (_ & He' & Ht'). congruence.
    - exists err. unfold eer_step. by rewrite Hp. }
  split.
  - destruct (eer_loop sc eer_init pre) as [st|err]; simpl.
    + destruct (Hstep st) as [err ->]. by exists err.
    + by exists err.
  - intros st lab -> Hlab. simpl.
    rewrite (eer_step_absent sc st line lab e t); [done| |done].
    by apply parse_trial_Ok.
Qed.

Lemma absent_trial_fails_witness :
  (∃ err,
     compute_EER (λ _ _, Ok (0%float, 0%float))
       (Scores.mk ["a"] ["b"] [[0.5%float]])
       (["0 a.wav b.wav"] ++ "1 a.wav zz.wav" :: ["1 a.wav b.wav"])
     = Err err)
  ∧ (∀ st lab,
       eer_loop (Scores.mk ["a"] ["b"] [[0.5%float]]) eer_init
         ["0 a.wav b.wav"] = Ok st →
       trial_field "1 a.wav zz.wav" 0 ≫= py_int = Ok lab →
       compute_EER (λ _ _, Ok (0%float, 0%float))
         (Scores.mk ["a"] ["b"] [[0.5%float]])
         (["0 a.wav b.wav"] ++ "1 a.wav zz.wav" :: ["1 a.wav b.wav"])
       = Err IndexError).
Proof.
  apply (absent_trial_fails _ _ _ _ "1 a.wav zz.wav" "a" "zz").
  - reflexivity.
  - reflexivity.
  - right. simpl. intros [=]%list_elem_of_singleton.
Defined.

(** C3 (as stated, refuted): with one match and one non-match trial, and
    an [EER] routine that answers the rate 0.25 at the threshold 0.5,
    [compute_EER] hands its caller the float 0.25 and not the pair. *)
Lemma compute_EER_returns_rate_only :
  compute_EER (λ _ _, Ok (0.25%float, 0.5%float))
    (Scores.mk ["a"] ["b"; "c"] [[0.5%float; (-0.5)%float]])
    ["1 a.wav b.wav"; "0 a.wav c.wav"]
  = Ok (VFloat 0.25)
  ∧ Ok (VFloat 0.25) ≠ Ok (VTuple [0.25%float; 0.5%float]).
Proof. split; [reflexivity|discriminate]. Qed.

(** C3 (amended): when every line of the trial file is read and the [EER]
    routine answers the pair [(eer, th)] on the positive and the negative
    scores collected, [compute_EER] returns [eer] alone; the threshold is
    dropped. *)
Theorem compute_EER_reports_rate
    (EER : list float → list float → res (float * float))
    (sc : Scores.t) (gt : list string) (st : eer_lists) (eer th : float) :
  eer_loop sc eer_init gt = Ok st →
  EER (positive_scores st) (negative_scores st) = Ok (eer, th) →
  compute_EER EER sc gt = Ok (VFloat eer).
Proof. intros Hloop HEER. unfold compute_EER. by rewrite Hloop; simpl; rewrite HEER. Qed.

Lemma compute_EER_reports_rate_witness :
  compute_EER
    (λ pos neg, if bool_decide (pos = [] ∨ neg = []) then Err ValueError
                else Ok (0.25%float, 0.5%float))
    (Scores.mk ["a"] ["b"; "c"] [[0.5%float; (-0.5)%float]])
    ["1 a.wav b.wav"; "0 a.wav c.wav"]
  = Ok (VFloat 0.25).
Proof.
  apply (compute_EER_reports_rate _ _ _
           (mk_eer_lists ["a<>b"; "a<>c"] [1; 0] [0.5%float] [(-0.5)%float])
           _ 0.5%float).
  - reflexivity.
  - reflexivity.
Defined.

(** C4: a trial that parses is scored at the first position of its
    enrolment identity in [modelset] and the first position of its test
    identity in [segset], whatever later positions hold the same
    identities: the score appended to one of the two score lists is the
    cell of the score matrix in that row and that column. *)
Theorem trial_scored_at_first_match (sc : Scores.t) (st : eer_lists)
    (line : string) (lab : Z) (e t : string) (i j : nat)
    (row : list float) (s : float) :
  parse_trial line = Ok (lab, e, t) →
  first_at (Scores.modelset sc) e i →
  first_at (Scores.segset sc) t j →
  Scores.scoremat sc !! i = Some row →
  row !! j = Some s →
  lookup_score sc e t = Ok (i, j, s)
  ∧ ∃ st', eer_step sc st line = Ok st'
      ∧ (lab = 1 ∧ positive_scores st' = positive_scores st ++ [s]
           ∧ negative_scores st' = negative_scores st
         ∨ lab ≠ 1 ∧ positive_scores st' = positive_scores st
           ∧ negative_scores st' = negative_scores st ++ [s]).
Proof.
  intros Hp Hi Hj Hrow Hs.
  assert (lookup_score sc e t = Ok (i, j, s)) as Hl.
  { apply lookup_score_first. repeat split; try apply Hi; try apply Hj.
    by eapply index2_lookup. }
  split; [done|]. eexists. split; [by eapply eer_step_found|].
  simpl. destruct (Z.eqb_spec lab 1); [by left|by right].
Qed.

Lemma trial_scored_at_first_match_witness :
  lookup_score
    (Scores.mk ["b"; "a"; "a"] ["y"; "z"; "x"; "x"]
       [[1; 2; 3; 4]; [5; 6; 7; 8]; [9; 10; 11; 12]]%float)
    "a" "x" = Ok (1%nat, 2%nat, 7%float)
  ∧ ∃ st',
      eer_step
        (Scores.mk ["b"; "a"; "a"] ["y"; "z"; "x"; "x"]
           [[1; 2; 3; 4]; [5; 6; 7; 8]; [9; 10; 11; 12]]%float)
        eer_init "1 a.wav x.wav" = Ok st'
      ∧ (1 = 1 ∧ positive_scores st' = positive_scores eer_init ++ [7%float]
           ∧ negative_scores st' = negative_scores eer_init
         ∨ 1 ≠ 1 ∧ positive_scores st' = positive_scores eer_init
           ∧ negative_scores st' = negative_scores eer_init ++ [7%float]).
Proof.
  apply (trial_scored_at_first_match
           (Scores.mk ["b"; "a"; "a"] ["y"; "z"; "x"; "x"]
              [[1; 2; 3; 4]; [5; 6; 7; 8]; [9; 10; 11; 12]]%float)
           eer_init "1 a.wav x.wav" 1 "a" "x" 1%nat 2%nat
           [5; 6; 7; 8]%float 7%float).
  - reflexivity.
  - split; [reflexivity|]. intros [|k] Hk; [discriminate|lia].
  - split; [reflexivity|]. intros [|[|k]] Hk; [discriminate|discriminate|lia].
  - reflexivity.
  - reflexivity.
Defined.

(** A trial labelled 2 is read like any other and its score goes to the
    negative list. *)
Example label_two_goes_negative :
  parse_trial "2 a.wav b.wav" = Ok (2, "a", "b")
  ∧ eer_step (Scores.mk ["a"] ["b"] [[0.5%float]]) eer_init "2 a.wav b.wav"
    = Ok (mk_eer_lists ["a<>b"] [2] [] [0.5%float]).
Proof. split; reflexivity. Qed.

(** C8: the score of a trial labelled 1 or 0 and found in the index, the
    cell of the score matrix at the first positions of its identities, is
    appended to the positive list iff the label is 1 and to the negative
    list iff the label is 0; it is appended to exactly one of the two
    lists and the other list is left as it was. *)
Theorem trial_score_partition (sc : Scores.t) (st : eer_lists)
    (line : string) (lab : Z) (e t : string) (i j : nat)
    (row : list float) (s : float) :
  parse_trial line = Ok (lab, e, t) →
  lab = 0 ∨ lab = 1 →
  first_at (Scores.modelset sc) e i →
  first_at (Scores.segset sc) t j →
  Scores.scoremat sc !! i = Some row →
  row !! j = Some s →
  ∃ st', eer_step sc st line = Ok st'
    ∧ (positive_scores st' = positive_scores st ++ [s] ↔ lab = 1)
    ∧ (negative_scores st' = negative_scores st ++ [s] ↔ lab = 0)
    ∧ (positive_scores st' = positive_scores st ++ [s]
         ∧ negative_scores st' = negative_scores st
       ∨ positive_scores st' = positive_scores st
         ∧ negative_scores st' = negative_scores st ++ [s]).
Proof.
  intros Hp Hlab Hi Hj Hrow Hs.
  assert (lookup_score sc e t = Ok (i, j, s)) as Hl.
  { apply lookup_score_first. repeat split; try apply Hi; try apply Hj.
    by eapply index2_lookup. }
  eexists. split; [by eapply eer_step_found|]. simpl.
  destruct Hlab as [-> | ->]; simpl.
  - split; [|split; [done|by right]]. split; [|done].
    intros H. by apply list_app_one_ne in H.
  - split; [done|]. split; [|by left]. split; [|done].
    intros H. by apply list_app_one_ne in H.
Qed.

Lemma trial_score_partition_witness :
  ∃ st',
    eer_step
      (Scores.mk ["b"; "a"] ["y"; "x"] [[1; 2]; [3; 4]]%float)
      (mk_eer_lists ["b<>y"] [1] [1%float] []) "0 a.wav x.wav" = Ok st'
    ∧ (positive_scores st' = [1%float] ++ [4%float] ↔ 0 = 1)
    ∧ (negative_scores st' = [] ++ [4%float] ↔ 0 = 0)
    ∧ (positive_scores st' = [1%float] ++ [4%float]
         ∧ negative_scores st' = []
       ∨ positive_scores st' = [1%float]
         ∧ negative_scores st' = [] ++ [4%float]).
Proof.
  apply (trial_score_partition
           (Scores.mk ["b"; "a"] ["y"; "x"] [[1; 2]; [3; 4]]%float)
           (mk_eer_lists ["b<>y"] [1] [1%float] []) "0 a.wav x.wav"
           0 "a" "x" 1%nat 1%nat [3; 4]%float 4%float).
  - reflexivity.
  - by left.
  - split; [reflexivity|]. intros [|k] Hk; [discriminate|lia].
  - split; [reflexivity|]. intros [|k] Hk; [discriminate|lia].
  - reflexivity.
  - reflexivity.
Defined.



(** ** The file caches *)

Lemma save_object_absent (o : pyobj) (path : string) (fs : filesystem) :
  fs !! path ≠ Some Dir →
  save_object o path fs = Ok (<[path := File (Ok o)]> fs).
Proof.
  intros Hd. unfold save_object.
  destruct (fs !! path) as [[c|]|]; done.
Qed.

Lemma cached_isfile (recompute : res pyobj) (path : string) (fs : filesystem) :
  fs !! path ≠ Some Dir →
  (if negb (isfile fs path)
   then o ← recompute; fs' ← save_object o path fs; mret (o, fs')
   else o ← pickle_load fs path; mret (o, fs))
  = cached_by_existence recompute path fs.
Proof.
  intros Hd. unfold cached_by_existence, isfile.
  destruct (fs !! path) as [[c|]|] eqn:Hp; simpl; [done|done|].
  destruct recompute as [o|e]; simpl; [|done].
  rewrite save_object_absent; [done|]. by rewrite Hp.
Qed.

Lemma cached_path_exists (recompute : res pyobj) (path : string)
    (fs : filesystem) :
  (if negb (path_exists fs path)
   then o ← recompute; fs' ← save_object o path fs; mret (o, fs')
   else o ← pickle_load fs path; mret (o, fs))
  = cached_by_existence recompute path fs.
Proof.
  unfold cached_by_existence, path_exists.
  destruct (fs !! path) as [n|] eqn:Hp; simpl; [done|].
  destruct recompute as [o|e]; simpl; [|done].
  rewrite save_object_absent; [done|]. by rewrite Hp.
Qed.

Lemma bind_fmap {A B C} (f : A → B) (m : res A) (k : B → res C) :
  (f <$> m) ≫= k = m ≫= (λ a, k (f a)).
Proof. by destruct m. Qed.

(** C5: each of the four caches, the training stat object, the stat
    object of a split handled by [emb_computation_loop] (enrolment and
    test) and the trial index, is used iff its file exists.  With nothing
    at the path the artifact is recomputed, saved there and returned,
    which is no error.  With a file at the path, whatever it holds, the
    object [pickle.load] gives on it is returned as it is, and neither
    the loaders nor the files are touched; when the load raises, its
    exception is raised and nothing is recomputed.  With a directory at
    the path the training block, which tests [os.path.exists], tries to
    load and raises, while the two other blocks, which test
    [os.path.isfile], recompute and then cannot save. *)
Theorem caches_used_iff_file_exists (params : Params)
    (convert_index_to_lab : list (list Z) → list (list string))
    (Ndx_new : list string → list string → res Ndx.t)
    (path : string) (fs : filesystem) :
  (fs !! path = None →
   (∀ train_set,
      train_embeddings params convert_index_to_lab train_set path fs
      = (o ← OStat <$> train_stat_object params convert_index_to_lab train_set;
         mret (o, <[path := File (Ok o)]> fs)))
   ∧ (∀ split set_loader,
        emb_computation_loop params split set_loader path fs
        = (o ← OStat <$> emb_stat_object params set_loader;
           mret (o, <[path := File (Ok o)]> fs)))
   ∧ (∀ enrol_obj test_obj,
        prepare_ndx Ndx_new enrol_obj test_obj path fs
        = (o ← ONdx <$> make_ndx Ndx_new enrol_obj test_obj;
           mret (o, <[path := File (Ok o)]> fs))))
  ∧ (∀ content, fs !! path = Some (File content) →
     (∀ train_set,
        train_embeddings params convert_index_to_lab train_set path fs
        = (o ← content; mret (o, fs)))
     ∧ (∀ split set_loader,
          emb_computation_loop params split set_loader path fs
          = (o ← content; mret (o, fs)))
     ∧ (∀ enrol_obj test_obj,
          prepare_ndx Ndx_new enrol_obj test_obj path fs
          = (o ← content; mret (o, fs))))
  ∧ (fs !! path = Some Dir →
     (∀ train_set,
        train_embeddings params convert_index_to_lab train_set path fs
        = Err IsADirectoryError)
     ∧ (∀ split set_loader,
          emb_computation_loop params split set_loader path fs
          = (o ← OStat <$> emb_stat_object params set_loader;
             Err IsADirectoryError))
     ∧ (∀ enrol_obj test_obj,
          prepare_ndx Ndx_new enrol_obj test_obj path fs
          = (o ← ONdx <$> make_ndx Ndx_new enrol_obj test_obj;
             Err IsADirectoryError))).
Proof.
  split; [|split].
  - intros Hp. repeat split; intros;
      unfold train_embeddings, emb_computation_loop, prepare_ndx,
        path_exists, isfile, save_object; rewrite Hp; simpl.
    + by destruct (train_stat_object _ _ _).
    + by destruct (emb_stat_object _ _).
    + by destruct (make_ndx _ _ _).
  - intros content Hp. repeat split; intros;
      unfold train_embeddings, emb_computation_loop, prepare_ndx,
        path_exists, isfile, pickle_load; by rewrite Hp.
  - intros Hp. repeat split; intros;
      unfold train_embeddings, emb_computation_loop, prepare_ndx,
        path_exists, isfile, save_object, pickle_load; rewrite Hp; simpl.
    + done.
    + by destruct (emb_stat_object _ _).
    + by destruct (make_ndx _ _ _).
Qed.

(** ** Arrays *)

Lemma concatenate_rows (n m d : nat) (xs ys : list float) :
  concatenate (mk_ndarray [n; d] xs) (mk_ndarray [m; d] ys)
  = Ok (mk_ndarray [(n + m)%nat; d] (xs ++ ys)).
Proof. unfold concatenate. simpl. by rewrite bool_decide_true. Qed.

Lemma squeeze_batch (b d : nat) (xs : list float) :
  b ≠ 1%nat → d ≠ 1%nat →
  squeeze (mk_ndarray [b; 1%nat; d] xs) = mk_ndarray [b; d] xs.
Proof.
  intros Hb Hd. unfold squeeze. simpl. f_equal.
  rewrite filter_cons_True by done. rewrite filter_cons_False by auto.
  by rewrite filter_cons_True by done.
Qed.

(** Squeezing every dimension loses the batch dimension of a batch of
    one vector, or the vector dimension of vectors of one cell; the
    result can no longer be stacked under a two-dimensional array. *)
Lemma concatenate_squeeze_short (n b d : nat) (xs ys : list float) :
  b = 1%nat ∨ d = 1%nat →
  concatenate (mk_ndarray [n; d] xs) (squeeze (mk_ndarray [b; 1%nat; d] ys))
  = Err ValueError.
Proof.
  intros Hbd. unfold squeeze, concatenate. simpl.
  rewrite !filter_cons, filter_nil.
  repeat case_decide; simpl; try done; exfalso; lia.
Qed.

Lemma chunk_lookup (d k : nat) (vs : list (list float)) (v : list float) :
  Forall (λ v, length v = d) vs →
  vs !! k = Some v →
  take d (drop (k * d) (concat vs)) = v.
Proof.
  intros Hvs. revert k. induction Hvs as [|a vs Ha _ IH]; intros k; [done|].
  destruct k as [|k]; simpl.
  - intros [= ->]. by apply take_app_length'.
  - intros Hk. rewrite drop_app_add' by done. by apply IH.
Qed.

Lemma rows_concat (d : nat) (vs : list (list float)) :
  Forall (λ v, length v = d) vs →
  rows (mk_ndarray [length vs; d] (concat vs)) = vs.
Proof.
  intros Hvs. unfold rows. simpl. apply list_eq. intros k.
  rewrite list_lookup_fmap.
  destruct (vs !! k) as [v|] eqn:Hk.
  - rewrite lookup_seq_lt by by eapply lookup_lt_Some.
    simpl. f_equal. unfold row_at. simpl. by apply chunk_lookup.
  - rewrite lookup_seq_ge; [done|]. by apply lookup_ge_None.
Qed.

Lemma rows_unit (n : nat) :
  rows (np_array (replicate n [1%float])) = replicate n [1%float].
Proof.
  destruct n as [|n]; [done|].
  change (np_array (replicate (S n) [1%float]))
    with (mk_ndarray [length (replicate (S n) [1%float]); 1%nat]
            (concat (replicate (S n) [1%float]))).
  apply rows_concat. by apply Forall_replicate.
Qed.

(** ** The loops that collect the embeddings *)

Lemma make_stat_object_Ok (ms ss : list string) (n d : nat)
    (xs : list float) :
  make_stat_object ms ss (mk_ndarray [n; d] xs)
  = Ok (StatObject_SB.mk ms ss (replicate n None) (replicate n None)
          (np_array (replicate n [1%float])) (mk_ndarray [n; d] xs)).
Proof. done. Qed.

Lemma make_stat_object_unit (ms ss : list string) (e : ndarray)
    (o : StatObject_SB.t) :
  make_stat_object ms ss e = Ok o → unit_stats o.
Proof.
  unfold make_stat_object.
  intros (n & Hn & [= <-])%bind_Ok. exists n. simpl.
  rewrite rows_unit, !length_replicate. repeat split; try done.
  - by apply lookup_replicate_2.
  - by apply lookup_replicate_2.
  - by apply lookup_replicate_2.
Qed.

Lemma emb_loop_delivered (params : Params) (set_loader : list batch)
    (vss : list (list (list float))) :
  Forall2 (delivers params) set_loader vss →
  ∀ ms ss n xs,
    (stackable params vss →
     emb_loop params set_loader ms ss (mk_ndarray [n; emb_dim params] xs)
     = Ok (ms ++ concat (batch_ids <$> set_loader),
           ss ++ concat (batch_ids <$> set_loader),
           mk_ndarray [(n + length (concat vss))%nat; emb_dim params]
             (xs ++ concat (concat vss))))
    ∧ (¬ stackable params vss →
       emb_loop params set_loader ms ss (mk_ndarray [n; emb_dim params] xs)
       = Err ValueError).
Proof.
  induction 1 as [|wav vs t vss (Hlen & Hvs & Hemb) _ IH]; intros ms ss n xs.
  - split.
    + intros _. simpl. by rewrite !app_nil_r, Nat.add_0_r.
    + intros Hbad. exfalso. apply Hbad. split; [by left|done].
  - simpl. rewrite Hemb. simpl.
    destruct (decide (length vs = 1%nat ∨ emb_dim params = 1%nat))
      as [Hshort|Hlong].
    + rewrite concatenate_squeeze_short by done. simpl. split; [|done].
      intros [[[=]|Hd] [Hb _]%Forall_cons]. lia.
    + rewrite squeeze_batch by lia. rewrite concatenate_rows. simpl.
      destruct (IH (ms ++ batch_ids wav) (ss ++ batch_ids wav)
                  (n + length vs)%nat (xs ++ concat vs)) as [IHok IHbad].
      split.
      * intros [_ [_ Hrest]%Forall_cons]. rewrite IHok.
        -- rewrite <- !app_assoc, ?length_app, ?Nat.add_assoc, ?concat_app.
           done.
        -- split; [right; lia|done].
      * intros Hbad. apply IHbad. intros [_ Hrest]. apply Hbad.
        split; [right; lia|]. apply Forall_cons. split; [lia|done].
Qed.

Lemma delivered_lengths (params : Params) (set_loader : list batch)
    (vss : list (list (list float))) :
  Forall2 (delivers params) set_loader vss →
  length (concat (batch_ids <$> set_loader)) = length (concat vss)
  ∧ Forall (λ v, length v = emb_dim params) (concat vss).
Proof.
  induction 1 as [|wav vs t vss (Hlen & Hvs & _) _ [IHl IHv]]; [done|].
  rewrite fmap_cons, !concat_cons, !length_app, Hlen, IHl. split; [done|].
  by apply Forall_app.
Qed.

Lemma zip_self_labelled (is_ : list string) (vs : list (list float)) :
  zip (zip is_ is_) vs = self_labelled <$> zip is_ vs.
Proof.
  revert vs. induction is_ as [|i is_ IH]; intros [|v vs]; simpl; [done..|].
  by rewrite IH.
Qed.

(** What [emb_stat_object] gives on batches answered as [delivers] says. *)
Lemma emb_stat_object_delivered (params : Params) (set_loader : list batch)
    (vss : list (list (list float))) :
  Forall2 (delivers params) set_loader vss →
  (stackable params vss →
   emb_stat_object params set_loader
   = Ok (StatObject_SB.mk
           (concat (batch_ids <$> set_loader))
           (concat (batch_ids <$> set_loader))
           (replicate (length (concat vss)) None)
           (replicate (length (concat vss)) None)
           (np_array (replicate (length (concat vss)) [1%float]))
           (mk_ndarray [length (concat vss); emb_dim params]
              (concat (concat vss)))))
  ∧ (¬ stackable params vss →
     emb_stat_object params set_loader = Err ValueError).
Proof.
  intros Hdel. unfold emb_stat_object, np_empty.
  destruct (emb_loop_delivered params set_loader vss Hdel [] [] 0%nat [])
    as [Hok Hbad].
  split.
  - intros Hst. rewrite (Hok Hst). done.
  - intros Hst. rewrite (Hbad Hst). done.
Qed.

Lemma stackable_dec (params : Params) (vss : list (list (list float))) :
  stackable params vss ∨ ¬ stackable params vss.
Proof.
  unfold stackable.
  destruct (decide (Forall (λ vs : list (list float), length vs ≠ 1%nat) vss))
    as [Hf|Hf]; [|right; tauto].
  destruct (decide (emb_dim params = 1%nat)) as [Hd|Hd]; [|left; tauto].
  destruct vss as [|vs vss]; [left; tauto|].
  right. intros [[[=]|Hne] _]. done.
Qed.

Lemma unique_key {A B} (l : list (A * B)) (a : A) (b1 b2 : B) :
  NoDup (l.*1) → (a, b1) ∈ l → (a, b2) ∈ l → b1 = b2.
Proof.
  induction l as [|[a' b'] l IH]; simpl; [by intros _ ?%elem_of_nil|].
  intros [Hnotin Hnd]%NoDup_cons.
  intros [[= -> ->]|H1]%elem_of_cons [[= ?]|H2]%elem_of_cons.
  - done.
  - exfalso. apply Hnotin. by apply (list_elem_of_fmap_2 fst) in H2.
  - subst. exfalso. apply Hnotin. by apply (list_elem_of_fmap_2 fst) in H1.
  - by apply IH.
Qed.

Lemma emb_stat_object_Ok (params : Params) (set_loader : list batch)
    (vss : list (list (list float))) (o : StatObject_SB.t) :
  Forall2 (delivers params) set_loader vss →
  emb_stat_object params set_loader = Ok o →
  stackable params vss
  ∧ o = StatObject_SB.mk
          (concat (batch_ids <$> set_loader))
          (concat (batch_ids <$> set_loader))
          (replicate (length (concat vss)) None)
          (replicate (length (concat vss)) None)
          (np_array (replicate (length (concat vss)) [1%float]))
          (mk_ndarray [length (concat vss); emb_dim params]
             (concat (concat vss))).
Proof.
  intros Hdel Ho.
  destruct (emb_stat_object_delivered params set_loader vss Hdel)
    as [Hok Hbad].
  destruct (stackable_dec params vss) as [Hst|Hst].
  - split; [done|]. rewrite (Hok Hst) in Ho. by injection Ho as <-.
  - rewrite (Hbad Hst) in Ho. done.
Qed.

Lemma emb_stat_object_records (params : Params) (set_loader : list batch)
    (vss : list (list (list float))) (o : StatObject_SB.t) :
  Forall2 (delivers params) set_loader vss →
  emb_stat_object params set_loader = Ok o →
  records o = self_labelled <$> utterances set_loader vss
  ∧ StatObject_SB.segset o = (utterances set_loader vss).*1.
Proof.
  intros Hdel Ho.
  destruct (emb_stat_object_Ok _ _ _ _ Hdel Ho) as [_ ->].
  destruct (delivered_lengths _ _ _ Hdel) as [Hlen Hvs].
  unfold records, utterances. simpl.
  rewrite rows_concat by done. rewrite zip_self_labelled.
  split; [done|]. rewrite fst_zip; [done|lia].
Qed.

(** ** The claims about the stat objects *)

(** C6: when the extractor answers every batch with one vector per
    identity, the stat object that [emb_computation_loop] builds has one
    record per utterance fed in: its [modelset], its [segset] and the rows
    of [stat1] are as many as the utterances, and its records are, in
    arrival order, the utterances with their vectors and with their
    identities as labels.  Such an object is built whenever no batch holds
    a single utterance and the vectors have more than one cell. *)
Theorem stat_object_has_one_record_per_utterance (params : Params)
    (set_loader : list batch) (vss : list (list (list float))) :
  Forall2 (delivers params) set_loader vss →
  (∀ o, emb_stat_object params set_loader = Ok o →
     length (StatObject_SB.modelset o) = length (utterances set_loader vss)
     ∧ length (StatObject_SB.segset o) = length (utterances set_loader vss)
     ∧ shape (StatObject_SB.stat1 o)
       = [length (utterances set_loader vss); emb_dim params]
     ∧ length (rows (StatObject_SB.stat1 o))
       = length (utterances set_loader vss)
     ∧ records o = self_labelled <$> utterances set_loader vss)
  ∧ (stackable params vss → ∃ o, emb_stat_object params set_loader = Ok o).
Proof.
  intros Hdel. split.
  - intros o Ho.
    destruct (emb_stat_object_records _ _ _ _ Hdel Ho) as [Hrec _].
    destruct (emb_stat_object_Ok _ _ _ _ Hdel Ho) as [_ ->].
    destruct (delivered_lengths _ _ _ Hdel) as [Hlen Hvs].
    assert (length (utterances set_loader vss) = length (concat vss)) as ->.
    { unfold utterances. rewrite length_zip. lia. }
    simpl. rewrite rows_concat by done. by rewrite Hrec.
  - intros Hst. eexists.
    by apply (emb_stat_object_delivered params set_loader vss Hdel).
Qed.

(** C7: two loaders that feed in the same utterances, batched and
    ordered differently, give stat objects with the same records up to
    their order; a record is in one iff it is in the other, and when the
    identities are distinct each identity carries the same label and the
    same vector in both. *)
Theorem records_independent_of_arrival_order (params : Params)
    (loader1 loader2 : list batch) (vss1 vss2 : list (list (list float)))
    (o1 o2 : StatObject_SB.t) :
  Forall2 (delivers params) loader1 vss1 →
  Forall2 (delivers params) loader2 vss2 →
  utterances loader1 vss1 ≡ₚ utterances loader2 vss2 →
  emb_stat_object params loader1 = Ok o1 →
  emb_stat_object params loader2 = Ok o2 →
  records o1 ≡ₚ records o2
  ∧ (∀ r, r ∈ records o1 ↔ r ∈ records o2)
  ∧ (NoDup (StatObject_SB.segset o1) →
     ∀ id lab1 v1 lab2 v2,
       (id, lab1, v1) ∈ records o1 → (id, lab2, v2) ∈ records o2 →
       lab1 = lab2 ∧ v1 = v2).
Proof.
  intros Hdel1 Hdel2 Hperm Ho1 Ho2.
  destruct (emb_stat_object_records _ _ _ _ Hdel1 Ho1) as [Hrec1 Hseg1].
  destruct (emb_stat_object_records _ _ _ _ Hdel2 Ho2) as [Hrec2 _].
  assert (records o1 ≡ₚ records o2) as Hrec.
  { rewrite Hrec1, Hrec2. by apply fmap_Permutation. }
  split; [done|]. split.
  - intros r. by rewrite Hrec.
  - intros Hnd id lab1 v1 lab2 v2 H1 H2.
    rewrite <- Hrec in H2. rewrite Hrec1 in H1, H2.
    apply list_elem_of_fmap in H1 as ([i1 w1] & [= -> -> ->] & H1).
    apply list_elem_of_fmap in H2 as ([i2 w2] & [= -> -> ->] & H2).
    simpl in *. split; [done|].
    rewrite Hseg1 in Hnd. by eapply unique_key.
Qed.

(** C10: every stat object the script constructs, by
    [emb_computation_loop] for the enrolment and the test split or by
    the training block, has one [start], one [stop] and one [stat0] entry
    per row of [stat1]; each [start] and [stop] entry is [None] and each
    [stat0] entry is the single value 1.0. *)
Theorem constructed_stat_objects_have_unit_stats (params : Params)
    (convert_index_to_lab : list (list Z) → list (list string))
    (set_loader : list batch) (train_set : list train_batch)
    (o : StatObject_SB.t) :
  emb_stat_object params set_loader = Ok o
  ∨ train_stat_object params convert_index_to_lab train_set = Ok o →
  unit_stats o.
Proof.
  intros [Ho|Ho].
  - unfold emb_stat_object in Ho.
    apply bind_Ok in Ho as ([[ms ss] e] & _ & Ho).
    by eapply make_stat_object_unit.
  - unfold train_stat_object in Ho.
    apply bind_Ok in Ho as ([[ms ss] e] & _ & Ho).
    by eapply make_stat_object_unit.
Qed.

(** ** The sample data, evaluated *)

Example sample_loader_builds :
  emb_stat_object sample_params sample_loader = Ok sample_stat
  ∧ emb_stat_object sample_params sample_loader_swapped
    = Ok sample_stat_swapped.
Proof. split; reflexivity. Qed.

Example sample_train_set_builds :
  train_stat_object sample_params sample_index_to_lab sample_train_set
  = Ok (StatObject_SB.mk ["spkA"] ["spkA-utt1"] [None] [None]
          (mk_ndarray [1%nat; 1%nat] [1%float])
          (mk_ndarray [1%nat; 2%nat] [1; 2]%float)).
Proof. reflexivity. Qed.

Lemma sample_loader_delivers :
  Forall2 (delivers sample_params) sample_loader sample_vectors.
Proof. repeat constructor. Qed.

Lemma sample_loader_swapped_delivers :
  Forall2 (delivers sample_params) sample_loader_swapped
    sample_vectors_swapped.
Proof. repeat constructor. Qed.

Example stale_cache_is_loaded :
  emb_computation_loop sample_params "test" sample_loader "stat_test.pkl"
    {[ "stat_test.pkl" := File (Ok (OOther "stale")) ]}
  = Ok (OOther "stale", {[ "stat_test.pkl" := File (Ok (OOther "stale")) ]}).
Proof. reflexivity. Qed.

Example missing_cache_is_recomputed :
  emb_computation_loop sample_params "test" sample_loader "stat_test.pkl" ∅
  = Ok (OStat sample_stat,
        <["stat_test.pkl" := File (Ok (OStat sample_stat))]> ∅).
Proof. reflexivity. Qed.

(** ** Witnesses *)

Lemma caches_used_iff_file_exists_witness :
  emb_computation_loop sample_params "test" sample_loader "stat_test.pkl"
    {[ "stat_test.pkl" := File (Ok (OOther "stale")) ]}
  = (o ← Ok (OOther "stale");
     mret (o, {[ "stat_test.pkl" := File (Ok (OOther "stale")) ]})).
Proof.
  refine (proj1 (proj2 (proj1 (proj2
            (caches_used_iff_file_exists sample_params sample_index_to_lab
               sample_Ndx "stat_test.pkl"
               {[ "stat_test.pkl" := File (Ok (OOther "stale")) ]}))
            (Ok (OOther "stale")) _)) "test" sample_loader).
  reflexivity.
Defined.

Lemma stat_object_has_one_record_per_utterance_witness :
  (∀ o, emb_stat_object sample_params sample_loader = Ok o →
     length (StatObject_SB.modelset o)
     = length (utterances sample_loader sample_vectors)
     ∧ length (StatObject_SB.segset o)
       = length (utterances sample_loader sample_vectors)
     ∧ shape (StatObject_SB.stat1 o)
       = [length (utterances sample_loader sample_vectors);
          emb_dim sample_params]
     ∧ length (rows (StatObject_SB.stat1 o))
       = length (utterances sample_loader sample_vectors)
     ∧ records o = self_labelled <$> utterances sample_loader sample_vectors)
  ∧ (stackable sample_params sample_vectors →
     ∃ o, emb_stat_object sample_params sample_loader = Ok o).
Proof.
  apply (stat_object_has_one_record_per_utterance sample_params
           sample_loader sample_vectors).
  repeat constructor.
Defined.

Lemma records_independent_of_arrival_order_witness :
  records sample_stat ≡ₚ records sample_stat_swapped
  ∧ (∀ r, r ∈ records sample_stat ↔ r ∈ records sample_stat_swapped)
  ∧ (NoDup (StatObject_SB.segset sample_stat) →
     ∀ id lab1 v1 lab2 v2,
       (id, lab1, v1) ∈ records sample_stat →
       (id, lab2, v2) ∈ records sample_stat_swapped →
       lab1 = lab2 ∧ v1 = v2).
Proof.
  apply (records_independent_of_arrival_order sample_params
           sample_loader sample_loader_swapped
           sample_vectors sample_vectors_swapped).
  - repeat constructor.
  - repeat constructor.
  - apply (Permutation_app_comm [_; _] [_; _]).
  - reflexivity.
  - reflexivity.
Defined.

Lemma constructed_stat_objects_have_unit_stats_witness :
  unit_stats sample_stat.
Proof.
  apply (constructed_stat_objects_have_unit_stats sample_params
           sample_index_to_lab sample_loader sample_train_set sample_stat).
  left. reflexivity.
Defined.

(** ** The batch of one utterance *)

(** X1: [emb_computation_loop] squeezes every dimension of the embeddings
    where the training block squeezes dimension 1 only: a batch that
    holds one utterance loses its batch dimension and cannot be stacked,
    so no stat object is built and [ValueError] is raised. *)
Theorem single_utterance_batch_raises (params : Params)
    (set_loader : list batch) (vss : list (list (list float))) :
  Forall2 (delivers params) set_loader vss →
  Exists (λ vs, length vs = 1%nat) vss →
  emb_stat_object params set_loader = Err ValueError.
Proof.
  intros Hdel Hex.
  apply (emb_stat_object_delivered params set_loader vss Hdel).
  intros [_ Hall]. apply Exists_exists in Hex as (vs & Hin & Hlen).
  rewrite Forall_forall in Hall. by apply (Hall vs Hin).
Qed.

Lemma single_utterance_batch_raises_witness :
  emb_stat_object sample_params [sample_batch ["u1"] [1; 2]%float]
  = Err ValueError.
Proof.
  apply (single_utterance_batch_raises sample_params
           [sample_batch ["u1"] [1; 2]%float] [[[1; 2]]]%float).
  - repeat constructor.
  - left. reflexivity.
Defined.

(** ** More on the trial parser *)

Lemma py_split_fields_no_sep (sep : ascii) (s f : string) :
  f ∈ py_split sep s → contains sep f = false.
Proof.
  revert f. induction s as [|c s IH]; intros f; simpl.
  - by intros ->%list_elem_of_singleton.
  - destruct (Ascii.eqb c sep) eqn:Hc.
    + intros [->|Hf]%elem_of_cons; [done|by apply IH].
    + destruct (py_split sep s) as [|w ws] eqn:Hs.
      * intros ->%list_elem_of_singleton. simpl. by rewrite Hc.
      * intros [->|Hf]%elem_of_cons.
        -- simpl. rewrite Hc. apply IH. by left.
        -- apply IH. by right.
Qed.

Lemma contains_before (c d : ascii) (s : string) :
  contains d (before c s) = true → contains d s = true.
Proof.
  induction s as [|a s IH]; simpl; [done|].
  destruct (Ascii.eqb a c); simpl; [done|].
  destruct (Ascii.eqb a d); [done|]. apply IH.
Qed.

Lemma before_no_own_sep (c : ascii) (s : string) :
  contains c (before c s) = false.
Proof.
  induction s as [|a s IH]; simpl; [done|].
  destruct (Ascii.eqb a c) eqn:Ha; simpl; [done|]. by rewrite Ha.
Qed.

Lemma contains_lstrip (d : ascii) (s : string) :
  contains d (py_lstrip s) = true → contains d s = true.
Proof.
  induction s as [|a s IH]; simpl; [done|].
  destruct (is_space a); simpl; [|done].
  intros H%IH. rewrite H. by rewrite orb_true_r.
Qed.

Lemma contains_strip (d : ascii) (s : string) :
  contains d (py_strip s) = true → contains d s = true.
Proof. unfold py_strip. by intros H%contains_rstrip%contains_lstrip. Qed.

Lemma py_lstrip_idemp (s : string) : py_lstrip (py_lstrip s) = py_lstrip s.
Proof.
  induction s as [|a s IH]; simpl; [done|].
  destruct (is_space a) eqn:Ha; [done|]. simpl. by rewrite Ha.
Qed.

Lemma py_strip_idemp (s : string) : py_strip (py_strip s) = py_strip s.
Proof.
  unfold py_strip.
  by rewrite py_lstrip_rstrip, py_lstrip_idemp, py_rstrip_idemp.
Qed.

Lemma py_rstrip_blank (s : string) :
  (∀ c, contains c s = true → is_space c = true) → py_rstrip s = EmptyString.
Proof.
  induction s as [|a s IH]; intros Hs; [done|].
  rewrite py_rstrip_cons, IH.
  - rewrite (Hs a); [done|]. simpl. by rewrite Ascii.eqb_refl.
  - intros c Hc. apply Hs. simpl. rewrite Hc. by rewrite orb_true_r.
Qed.

Lemma py_int_Err (s : string) (e : exn) : py_int s = Err e → e = ValueError.
Proof.
  unfold py_int.
  destruct (int_rstrip (int_lstrip s)) as [|a t]; simpl.
  - by intros [= <-].
  - repeat case_match; by intros [= <-].
Qed.

Lemma trial_field_Err (line : string) (k : nat) (e : exn) :
  trial_field line k = Err e → e = IndexError.
Proof.
  unfold trial_field.
  destruct (index (py_split " " line) k) as [f|e'] eqn:Hf; simpl.
  - rewrite head_py_split. done.
  - intros [= <-]. by eapply index_Err.
Qed.

Lemma lookup_score_Err (sc : Scores.t) (e t : string) (err : exn) :
  lookup_score sc e t = Err err → err = IndexError.
Proof.
  unfold lookup_score, index2.
  destruct (index (where_eq (Scores.modelset sc) e 0) 0) as [i|e1] eqn:Hi;
    simpl; [|intros [= <-]; by eapply index_Err].
  destruct (index (where_eq (Scores.segset sc) t 0) 0) as [j|e2] eqn:Hj;
    simpl; [|intros [= <-]; by eapply index_Err].
  destruct (index (Scores.scoremat sc) i) as [r|e3] eqn:Hr;
    simpl; [|intros [= <-]; by eapply index_Err].
  destruct (index r j) as [s|e4] eqn:Hs;
    simpl; [done|intros [= <-]; by eapply index_Err].
Qed.

Lemma parse_trial_Err (line : string) (e : exn) :
  parse_trial line = Err e → e = ValueError ∨ e = IndexError.
Proof.
  unfold parse_trial.
  destruct (trial_field line 0) as [l|e0] eqn:H0; simpl;
    [|intros [= <-]; right; by eapply trial_field_Err].
  destruct (py_int l) as [lab|e1] eqn:Hl; simpl;
    [|intros [= <-]; left; by eapply py_int_Err].
  destruct (trial_field line 1) as [en|e2] eqn:H1; simpl;
    [|intros [= <-]; right; by eapply trial_field_Err].
  destruct (trial_field line 2) as [te|e3] eqn:H2; simpl;
    [done|intros [= <-]; right; by eapply trial_field_Err].
Qed.

Lemma eer_step_Ok (sc : Scores.t) (st st' : eer_lists) (line : string) :
  eer_step sc st line = Ok st' →
  ∃ lab e t i j s,
    parse_trial line = Ok (lab, e, t)
    ∧ lookup_score sc e t = Ok (i, j, s)
    ∧ st' = mk_eer_lists (ids st ++ [e +:+ "<>" +:+ t]) (labels st ++ [lab])
              (if (lab =? 1)%Z then positive_scores st ++ [s]
               else positive_scores st)
              (if (lab =? 1)%Z then negative_scores st
               else negative_scores st ++ [s]).
Proof.
  intros H.
  destruct (parse_trial line) as [[[lab e] t]|err] eqn:Hp;
    [|unfold eer_step in H; by rewrite Hp in H].
  destruct (lookup_score sc e t) as [[[i j] s]|err] eqn:Hl;
    [|unfold eer_step in H; rewrite Hp in H; simpl in H; by rewrite Hl in H].
  exists lab, e, t, i, j, s. split; [done|]. split; [done|].
  rewrite (eer_step_found sc st line lab e t i j s Hp Hl) in H.
  by injection H as <-.
Qed.

Lemma eer_step_Err (sc : Scores.t) (st : eer_lists) (line : string) (e : exn) :
  eer_step sc st line = Err e → e = ValueError ∨ e = IndexError.
Proof.
  unfold eer_step.
  destruct (parse_trial line) as [[[lab en] te]|err] eqn:Hp; simpl;
    [|intros [= <-]; by eapply parse_trial_Err].
  destruct (lookup_score sc en te) as [[[i j] s]|err] eqn:Hl; simpl.
  - by destruct (lab =? 1)%Z.
  - intros [= <-]. right. by eapply lookup_score_Err.
Qed.

(** X2: whatever the line, an identity or label text that the parser
    extracts holds no dot and no space and has no white space at either
    end. *)
Theorem trial_field_is_normalised (line : string) (k : nat) (id : string) :
  trial_field line k = Ok id →
  contains "." id = false ∧ contains " " id = false ∧ py_strip id = id.
Proof.
  unfold trial_field.
  intros (f & Hf & (w & Hw & [= <-])%bind_Ok)%bind_Ok.
  rewrite head_py_split in Hw. injection Hw as <-.
  assert (contains " " f = false) as Hsp.
  { apply py_split_fields_no_sep with line. unfold index in Hf.
    destruct (py_split " " line !! k) as [f'|] eqn:Hk; [|done].
    injection Hf as ->. by eapply list_elem_of_lookup_2. }
  split; [|split].
  - destruct (contains "." (py_strip (before "." (py_rstrip f)))) eqn:H;
      [|done].
    apply contains_strip in H. by rewrite before_no_own_sep in H.
  - destruct (contains " " (py_strip (before "." (py_rstrip f)))) eqn:H;
      [|done].
    apply contains_strip, contains_before, contains_rstrip in H. congruence.
  - apply py_strip_idemp.
Qed.

Lemma trial_field_is_normalised_witness :
  contains "." "a/b" = false ∧ contains " " "a/b" = false
  ∧ py_strip "a/b" = "a/b".
Proof.
  apply (trial_field_is_normalised "1 a/b.c.wav x.wav" 1 "a/b").
  reflexivity.
Defined.

(** X3: the label is cut at the first dot of the first field like the
    identities: a first field [d.x] is read as [int] of [d] stripped of
    the white space around it, so 1.0, 1.5 and 1.wav all count as the
    label 1. *)
Theorem label_is_cut_at_first_dot (d x rest : string) :
  contains " " (d +:+ x) = false →
  contains "." d = false →
  x = EmptyString ∨ (∃ r, x = String "." r) →
  trial_field ((d +:+ x) +:+ " " +:+ rest) 0 ≫= py_int
  = py_int (py_strip d).
Proof.
  intros Hf Hd Hx.
  rewrite (trial_field_at _ 0 (d +:+ x)).
  - simpl. by rewrite before_prefix.
  - change (py_split " " ((d +:+ x) +:+ String " " rest) !! 0%nat
            = Some (d +:+ x)).
    by rewrite py_split_app.
Qed.

Lemma label_is_cut_at_first_dot_witness :
  trial_field (("1" +:+ ".5") +:+ " " +:+ "a.wav b.wav") 0 ≫= py_int
  = py_int (py_strip "1").
Proof.
  apply (label_is_cut_at_first_dot "1" ".5" "a.wav b.wav").
  - reflexivity.
  - reflexivity.
  - right. eexists. reflexivity.
Defined.

(** X4: a line made of white space only, an empty last line for
    instance, is not skipped: once the lines before it are read,
    [compute_EER] raises [ValueError] on it, whatever follows. *)
Theorem blank_line_raises_ValueError
    (EER : list float → list float → res (float * float))
    (sc : Scores.t) (pre post : list string) (line : string)
    (st : eer_lists) :
  (∀ c, contains c line = true → is_space c = true) →
  eer_loop sc eer_init pre = Ok st →
  parse_trial line = Err ValueError
  ∧ compute_EER EER sc (pre ++ line :: post) = Err ValueError.
Proof.
  intros Hblank Hpre.
  assert (parse_trial line = Err ValueError) as Hp.
  { unfold parse_trial, trial_field. rewrite head_py_split. simpl.
    rewrite py_rstrip_blank; [done|].
    intros c Hc. apply Hblank. by eapply contains_before. }
  split; [done|].
  unfold compute_EER. rewrite eer_loop_app, Hpre. simpl.
  unfold eer_step. by rewrite Hp.
Qed.

Lemma blank_line_raises_ValueError_witness :
  parse_trial "
" = Err ValueError
  ∧ compute_EER sample_EER sample_scores
      (["1 u1.wav u3.wav"] ++ "
" :: ["0 u1.wav u4.wav"])
    = Err ValueError.
Proof.
  apply (blank_line_raises_ValueError sample_EER sample_scores
           ["1 u1.wav u3.wav"] ["0 u1.wav u4.wav"] "
"
           (mk_eer_lists ["u1<>u3"] [1] [0.5%float] [])).
  - intros c Hc. change (Ascii.eqb "010"%char c || false = true) in Hc.
    rewrite orb_false_r in Hc. apply Ascii.eqb_eq in Hc as <-. reflexivity.
  - reflexivity.
Defined.

Lemma eer_loop_Ok (sc : Scores.t) (gt : list string) (st0 st : eer_lists) :
  eer_loop sc st0 gt = Ok st →
  ∃ new_ids labs,
    ids st = ids st0 ++ new_ids
    ∧ labels st = labels st0 ++ labs
    ∧ Forall2 (λ line lab, ∃ e t, parse_trial line = Ok (lab, e, t)) gt labs
    ∧ Forall2 (λ line id, ∃ lab e t,
                 parse_trial line = Ok (lab, e, t) ∧ id = e +:+ "<>" +:+ t)
        gt new_ids
    ∧ length (positive_scores st)
      = (length (positive_scores st0) + length (filter (λ l : Z, (l = 1)%Z) labs))%nat
    ∧ length (negative_scores st)
      = (length (negative_scores st0) + length (filter (λ l : Z, (l ≠ 1)%Z) labs))%nat.
Proof.
  revert st0. induction gt as [|line gt IH]; intros st0; simpl.
  - intros [= <-]. exists [], []. rewrite !app_nil_r. simpl.
    repeat split; try constructor; lia.
  - intros (st1 & Hstep & Hloop)%bind_Ok.
    apply eer_step_Ok in Hstep as (lab & e & t & i & j & s & Hp & _ & ->).
    apply IH in Hloop
      as (new_ids & labs & Hids & Hlabs & Hf1 & Hf2 & Hpos & Hneg).
    simpl in *.
    exists ((e +:+ "<>" +:+ t) :: new_ids), (lab :: labs).
    rewrite Hids, Hlabs, <- !app_assoc. simpl.
    split; [done|]. split; [done|].
    split; [constructor; [by exists e, t|done]|].
    split; [constructor; [by exists lab, e, t|done]|].
    rewrite Hpos, Hneg, !filter_cons.
    destruct (Z.eqb_spec lab 1) as [->|Hne].
    + rewrite decide_True by done. rewrite decide_False by auto.
      rewrite length_app. simpl. lia.
    + rewrite decide_False by done. rewrite decide_True by done.
      rewrite length_app. simpl. lia.
Qed.

Lemma eer_loop_Err (sc : Scores.t) (gt : list string) (st : eer_lists)
    (e : exn) :
  eer_loop sc st gt = Err e → e = ValueError ∨ e = IndexError.
Proof.
  revert st. induction gt as [|line gt IH]; intros st; simpl; [done|].
  destruct (eer_step sc st line) as [st'|err] eqn:Hstep; simpl.
  - apply IH.
  - intros [= <-]. by eapply eer_step_Err.
Qed.

Lemma filter_partition_length (labs : list Z) :
  (length (filter (λ l : Z, (l = 1)%Z) labs) + length (filter (λ l : Z, (l ≠ 1)%Z) labs)
   = length labs)%nat.
Proof.
  induction labs as [|l labs IH]; [done|].
  rewrite !filter_cons. destruct (decide (l = 1)) as [->|Hne].
  - rewrite decide_False by auto. simpl. lia.
  - rewrite decide_True by done. simpl. lia.
Qed.

(** X5: when the whole trial file is read, the four lists are in step
    with it: there is one label and one identity pair per line, in the
    order of the file, each read from its line; the positive scores are as
    many as the labels equal to 1, the negative scores as many as the
    other labels, and together as many as the lines. *)
Theorem trial_lists_in_step_with_file (sc : Scores.t) (gt : list string)
    (st : eer_lists) :
  eer_loop sc eer_init gt = Ok st →
  Forall2 (λ line lab, ∃ e t, parse_trial line = Ok (lab, e, t))
    gt (labels st)
  ∧ Forall2 (λ line id, ∃ lab e t,
               parse_trial line = Ok (lab, e, t) ∧ id = e +:+ "<>" +:+ t)
      gt (ids st)
  ∧ length (positive_scores st) = length (filter (λ l : Z, (l = 1)%Z) (labels st))
  ∧ length (negative_scores st) = length (filter (λ l : Z, (l ≠ 1)%Z) (labels st))
  ∧ (length (positive_scores st) + length (negative_scores st))%nat
    = length gt.
Proof.
  intros (new_ids & labs & Hids & Hlabs & Hf1 & Hf2 & Hpos & Hneg)%eer_loop_Ok.
  simpl in *. rewrite Hlabs, Hids, Hpos, Hneg.
  repeat split; try done.
  rewrite filter_partition_length. symmetry. by eapply Forall2_length.
Qed.

Lemma trial_lists_in_step_with_file_witness :
  Forall2 (λ line lab, ∃ e t, parse_trial line = Ok (lab, e, t))
    sample_gt [1; 0; 0; 1]
  ∧ Forall2 (λ line id, ∃ lab e t,
               parse_trial line = Ok (lab, e, t) ∧ id = e +:+ "<>" +:+ t)
      sample_gt ["u1<>u3"; "u1<>u4"; "u2<>u3"; "u2<>u4"]
  ∧ length [0.5%float; 0.75%float] = length (filter (λ l : Z, (l = 1)%Z) [1; 0; 0; 1])
  ∧ length [(-0.5)%float; (-0.25)%float]
    = length (filter (λ l : Z, (l ≠ 1)%Z) [1; 0; 0; 1])
  ∧ (length [0.5%float; 0.75%float]
     + length [(-0.5)%float; (-0.25)%float])%nat
    = length sample_gt.
Proof.
  apply (trial_lists_in_step_with_file sample_scores sample_gt
           (mk_eer_lists ["u1<>u3"; "u1<>u4"; "u2<>u3"; "u2<>u4"] [1; 0; 0; 1]
              [0.5%float; 0.75%float] [(-0.5)%float; (-0.25)%float])).
  reflexivity.
Defined.

Lemma eer_loop_first_error (sc : Scores.t) (gt : list string)
    (st0 : eer_lists) (e : exn) :
  eer_loop sc st0 gt = Err e →
  ∃ pre line post st,
    gt = pre ++ line :: post
    ∧ eer_loop sc st0 pre = Ok st ∧ eer_step sc st line = Err e.
Proof.
  revert st0. induction gt as [|l gt IH]; intros st0; simpl; [done|].
  destruct (eer_step sc st0 l) as [st1|err] eqn:Hstep; simpl.
  - intros (pre & line & post & st & -> & Hpre & Hline)%IH.
    exists (l :: pre), line, post, st. simpl. rewrite Hstep. done.
  - intros [= <-]. by exists [], l, gt, st0.
Qed.

(** X6: once the trial file is open and its lines are read one after
    the other, the loop of [compute_EER] over them raises nothing but
    [ValueError], for a label that is no integer, and [IndexError], for a
    missing field, a missing identity or a score matrix too small; the
    exception is the one of the first line that cannot be processed,
    every line before it having been read. *)
Theorem trial_loop_error_classes (sc : Scores.t) (gt : list string)
    (e : exn) :
  eer_loop sc eer_init gt = Err e →
  (e = ValueError ∨ e = IndexError)
  ∧ ∃ pre line post st,
      gt = pre ++ line :: post
      ∧ eer_loop sc eer_init pre = Ok st ∧ eer_step sc st line = Err e.
Proof.
  intros H. split; [by eapply eer_loop_Err|by apply eer_loop_first_error].
Qed.

Lemma trial_loop_error_classes_witness :
  (ValueError = ValueError ∨ ValueError = IndexError)
  ∧ ∃ pre line post st,
      ["1 u1.wav u3.wav"; "x u1.wav u4.wav"; "1 u1.wav"]
      = pre ++ line :: post
      ∧ eer_loop sample_scores eer_init pre = Ok st
      ∧ eer_step sample_scores st line = Err ValueError.
Proof.
  apply (trial_loop_error_classes sample_scores
           ["1 u1.wav u3.wav"; "x u1.wav u4.wav"; "1 u1.wav"]).
  reflexivity.
Defined.

(** ** What the embedding loop keeps whatever the extractor returns *)

Lemma concatenate_Ok (a b r : ndarray) (n d : nat) :
  shape a = [n; d] →
  concatenate a b = Ok r →
  ∃ m, shape b = [m; d] ∧ r = mk_ndarray [(n + m)%nat; d] (data a ++ data b).
Proof.
  unfold concatenate. intros ->.
  destruct (shape b) as [|m rb]; [done|].
  case_bool_decide as Hrb; [|done].
  intros [= <-]. exists m. by rewrite <- Hrb.
Qed.

Lemma concatenate_Err (a b : ndarray) (e : exn) :
  concatenate a b = Err e → e = ValueError.
Proof.
  unfold concatenate.
  destruct (shape a) as [|n ra]; [by intros [= <-]|].
  destruct (shape b) as [|m rb]; [by intros [= <-]|].
  case_bool_decide; [done|by intros [= <-]].
Qed.

Lemma emb_loop_Ok (params : Params) (set_loader : list batch)
    (ms ss ms' ss' : list string) (n d : nat) (xs : list float)
    (e' : ndarray) :
  emb_loop params set_loader ms ss (mk_ndarray [n; d] xs) = Ok (ms', ss', e') →
  ms' = ms ++ concat (batch_ids <$> set_loader)
  ∧ ss' = ss ++ concat (batch_ids <$> set_loader)
  ∧ (∃ n', shape e' = [n'; d])
  ∧ Forall (λ wav, ∃ embs m,
              compute_embeddings params (batch_wavs wav) (batch_lens wav)
              = Ok embs
              ∧ shape (squeeze embs) = [m; d]) set_loader.
Proof.
  revert ms ss n xs. induction set_loader as [|wav t IH]; intros ms ss n xs.
  - simpl. intros [= <- <- <-]. rewrite !app_nil_r.
    repeat split; [by exists n|constructor].
  - intros H. simpl in H.
    apply bind_Ok in H as (embs & Hembs & (e1 & Hcat & Hrest)%bind_Ok).
    destruct (concatenate_Ok (mk_ndarray [n; d] xs) (squeeze embs) e1 n d
                eq_refl Hcat) as (m & Hm & ->).
    apply IH in Hrest as (-> & -> & Hshape & Hall).
    rewrite fmap_cons, concat_cons, <- !app_assoc.
    repeat split; [done|].
    constructor; [|done]. by exists embs, m.
Qed.

Lemma squeeze_batch_shape (b d' m d : nat) (cells : list float) :
  shape (squeeze (mk_ndarray [b; 1%nat; d'] cells)) = [m; d] →
  b = m ∧ d' = d ∧ b ≠ 1%nat ∧ d' ≠ 1%nat.
Proof.
  unfold squeeze. simpl. rewrite !filter_cons, filter_nil.
  repeat case_decide; try done; intros [= ]; subst; done.
Qed.

(** X7: whatever the extractor returns, a stat object that
    [emb_computation_loop] builds lists the identities of the batches,
    in arrival order, both as its [modelset] and as its [segset], and its
    [stat1] has two dimensions, the second being [emb_dim]. *)
Theorem built_stat_object_is_self_labelled (params : Params)
    (set_loader : list batch) (o : StatObject_SB.t) :
  emb_stat_object params set_loader = Ok o →
  StatObject_SB.modelset o = concat (batch_ids <$> set_loader)
  ∧ StatObject_SB.segset o = concat (batch_ids <$> set_loader)
  ∧ ∃ n, shape (StatObject_SB.stat1 o) = [n; emb_dim params]
      ∧ length (StatObject_SB.start o) = n
      ∧ length (StatObject_SB.stop o) = n.
Proof.
  unfold emb_stat_object, np_empty.
  intros ([[ms ss] e] & Hloop & Hobj)%bind_Ok.
  apply emb_loop_Ok in Hloop as (-> & -> & [n Hn] & _).
  unfold make_stat_object in Hobj. rewrite Hn in Hobj.
  injection Hobj as <-. simpl. repeat split.
  exists n. by rewrite length_replicate.
Qed.

Lemma built_stat_object_is_self_labelled_witness :
  StatObject_SB.modelset sample_stat = concat (batch_ids <$> sample_loader)
  ∧ StatObject_SB.segset sample_stat = concat (batch_ids <$> sample_loader)
  ∧ ∃ n, shape (StatObject_SB.stat1 sample_stat) = [n; emb_dim sample_params]
      ∧ length (StatObject_SB.start sample_stat) = n
      ∧ length (StatObject_SB.stop sample_stat) = n.
Proof.
  apply (built_stat_object_is_self_labelled sample_params sample_loader
           sample_stat).
  reflexivity.
Defined.

(** X8: when the extractor answers some batch with vectors whose length
    is not [emb_dim], [emb_computation_loop] builds no stat object; when
    that batch is the first one the exception is [ValueError]. *)
Theorem wrong_embedding_size_raises (params : Params)
    (set_loader : list batch) (wav : batch) (b d : nat)
    (cells : list float) :
  wav ∈ set_loader →
  compute_embeddings params (batch_wavs wav) (batch_lens wav)
  = Ok (mk_ndarray [b; 1%nat; d] cells) →
  d ≠ emb_dim params →
  (∃ e, emb_stat_object params set_loader = Err e)
  ∧ (∀ rest, set_loader = wav :: rest →
       emb_stat_object params set_loader = Err ValueError).
Proof.
  intros Hin Hembs Hd. split.
  - destruct (emb_stat_object params set_loader) as [o|e] eqn:Ho;
      [|by exists e].
    exfalso. unfold emb_stat_object, np_empty in Ho.
    apply bind_Ok in Ho as ([[ms ss] e] & Hloop & _).
    apply emb_loop_Ok in Hloop as (_ & _ & _ & Hall).
    rewrite Forall_forall in Hall.
    destruct (Hall wav Hin) as (embs & m & Hembs' & Hsq).
    rewrite Hembs in Hembs'. injection Hembs' as <-.
    by apply squeeze_batch_shape in Hsq as (_ & ? & _).
  - intros rest ->. unfold emb_stat_object, np_empty. simpl.
    rewrite Hembs. simpl.
    destruct (concatenate (mk_ndarray [0%nat; emb_dim params] [])
                (squeeze (mk_ndarray [b; 1%nat; d] cells)))
      as [r|e] eqn:Hcat.
    + exfalso.
      destruct (concatenate_Ok (mk_ndarray [0%nat; emb_dim params] []) _ r
                  0%nat (emb_dim params) eq_refl Hcat) as (m & Hm & _).
      by apply squeeze_batch_shape in Hm as (_ & ? & _).
    + simpl. by apply concatenate_Err in Hcat as ->.
Qed.

Lemma wrong_embedding_size_raises_witness :
  (∃ e,
     emb_stat_object sample_params
       [mk_batch ["u1"; "u2"] (mk_ndarray [2%nat; 3%nat] [1; 2; 3; 4; 5; 6]%float)
          (ones 2)] = Err e)
  ∧ (∀ rest,
       [mk_batch ["u1"; "u2"]
          (mk_ndarray [2%nat; 3%nat] [1; 2; 3; 4; 5; 6]%float) (ones 2)]
       = mk_batch ["u1"; "u2"]
           (mk_ndarray [2%nat; 3%nat] [1; 2; 3; 4; 5; 6]%float) (ones 2)
         :: rest →
       emb_stat_object sample_params
         [mk_batch ["u1"; "u2"]
            (mk_ndarray [2%nat; 3%nat] [1; 2; 3; 4; 5; 6]%float) (ones 2)]
       = Err ValueError).
Proof.
  apply (wrong_embedding_size_raises sample_params _ _ 2%nat 3%nat
           [1; 2; 3; 4; 5; 6]%float).
  - by left.
  - reflexivity.
  - simpl. lia.
Defined.

(** ** The training block *)

Lemma squeeze_dim_batch (b d : nat) (xs : list float) :
  squeeze_dim 1 (mk_ndarray [b; 1%nat; d] xs) = Ok (mk_ndarray [b; d] xs).
Proof. done. Qed.

Lemma train_loop_delivered (params : Params)
    (convert_index_to_lab : list (list Z) → list (list string))
    (train_set : list train_batch)
    (vls : list (list (list float) * list string)) :
  Forall2 (train_delivers params convert_index_to_lab) train_set vls →
  ∀ ms ss n xs,
    train_loop params convert_index_to_lab train_set ms ss
      (mk_ndarray [n; emb_dim params] xs)
    = Ok (ms ++ concat (vls.*2),
          ss ++ concat (train_snt_id <$> train_set),
          mk_ndarray [(n + length (concat (vls.*1)))%nat; emb_dim params]
            (xs ++ concat (concat (vls.*1)))).
Proof.
  induction 1 as [|b [vs labs] t vls (Hl1 & Hl2 & Hvs & Hemb & Hlab) _ IH];
    intros ms ss n xs.
  - simpl. by rewrite !app_nil_r, Nat.add_0_r.
  - simpl in Hl1, Hl2, Hvs, Hemb, Hlab.
    cbn [train_loop]. rewrite Hlab. simpl. rewrite Hemb. simpl.
    rewrite concatenate_rows. simpl. rewrite IH.
    by rewrite <- !app_assoc, ?length_app, ?Nat.add_assoc, ?concat_app.
Qed.

Lemma train_delivered_lengths (params : Params)
    (convert_index_to_lab : list (list Z) → list (list string))
    (train_set : list train_batch)
    (vls : list (list (list float) * list string)) :
  Forall2 (train_delivers params convert_index_to_lab) train_set vls →
  length (concat (vls.*1)) = length (concat (train_snt_id <$> train_set))
  ∧ length (concat (vls.*2)) = length (concat (train_snt_id <$> train_set))
  ∧ Forall (λ v, length v = emb_dim params) (concat (vls.*1)).
Proof.
  induction 1 as [|b [vs labs] t vls (Hl1 & Hl2 & Hvs & _) _ (IH1 & IH2 & IH3)];
    [done|].
  simpl in Hl1, Hl2, Hvs.
  rewrite !fmap_cons, !concat_cons, !length_app. simpl.
  rewrite Hl1, Hl2, IH1, IH2. repeat split. by apply Forall_app.
Qed.

(** X9: when the extractor and the label dictionary answer every
    training batch with one vector and one speaker label per sentence, the
    training block builds a stat object, also from batches of a single
    sentence: its [segset] lists the sentences, its [modelset] their
    speakers, and its records are, in arrival order, each sentence with
    its speaker and its vector. *)
Theorem train_stat_object_records (params : Params)
    (convert_index_to_lab : list (list Z) → list (list string))
    (train_set : list train_batch)
    (vls : list (list (list float) * list string)) :
  Forall2 (train_delivers params convert_index_to_lab) train_set vls →
  ∃ o, train_stat_object params convert_index_to_lab train_set = Ok o
    ∧ StatObject_SB.segset o = concat (train_snt_id <$> train_set)
    ∧ StatObject_SB.modelset o = concat (vls.*2)
    ∧ records o
      = zip (zip (concat (train_snt_id <$> train_set)) (concat (vls.*2)))
          (concat (vls.*1))
    ∧ length (records o) = length (concat (train_snt_id <$> train_set)).
Proof.
  intros Hdel.
  destruct (train_delivered_lengths _ _ _ _ Hdel) as (Hl1 & Hl2 & Hvs).
  unfold train_stat_object, np_empty.
  rewrite (train_loop_delivered _ _ _ _ Hdel). simpl.
  eexists. split; [done|]. simpl. unfold records. simpl.
  rewrite rows_concat by done.
  repeat split. rewrite !length_zip. lia.
Qed.

Lemma train_stat_object_records_witness :
  ∃ o, train_stat_object sample_params sample_index_to_lab sample_train_set
       = Ok o
    ∧ StatObject_SB.segset o = concat (train_snt_id <$> sample_train_set)
    ∧ StatObject_SB.modelset o = concat ([([[1; 2]%float], ["spkA"])].*2)
    ∧ records o
      = zip (zip (concat (train_snt_id <$> sample_train_set))
               (concat ([([[1; 2]%float], ["spkA"])].*2)))
          (concat ([([[1; 2]%float], ["spkA"])].*1))
    ∧ length (records o) = length (concat (train_snt_id <$> sample_train_set)).
Proof.
  apply (train_stat_object_records sample_params sample_index_to_lab
           sample_train_set [([[1; 2]%float], ["spkA"])]).
  repeat constructor.
Defined.

(** ** The caches, run after run *)

Lemma cached_Ok (recompute : res pyobj) (path : string) (fs fs' : filesystem)
    (o : pyobj) :
  cached_by_existence recompute path fs = Ok (o, fs') →
  fs' !! path = Some (File (Ok o)) ∧ ∀ p, p ≠ path → fs' !! p = fs !! p.
Proof.
  unfold cached_by_existence, pickle_load.
  destruct (fs !! path) as [[[c|]|]|] eqn:Hp; simpl; try done.
  - by intros [= <- <-].
  - destruct recompute as [o'|e]; simpl; [|done].
    intros [= <- <-]. split.
    + by rewrite lookup_insert_eq.
    + intros p Hne. by rewrite lookup_insert_ne.
Qed.

Lemma cached_hit (recompute : res pyobj) (path : string) (fs : filesystem)
    (o : pyobj) :
  fs !! path = Some (File (Ok o)) →
  cached_by_existence recompute path fs = Ok (o, fs).
Proof. intros Hp. unfold cached_by_existence, pickle_load. by rewrite Hp. Qed.

Lemma emb_computation_loop_cached (params : Params) (split : string)
    (set_loader : list batch) (path : string) (fs : filesystem) :
  fs !! path ≠ Some Dir →
  emb_computation_loop params split set_loader path fs
  = cached_by_existence (OStat <$> emb_stat_object params set_loader) path fs.
Proof.
  intros Hd. rewrite <- cached_isfile by done.
  unfold emb_computation_loop. by rewrite bind_fmap.
Qed.

Lemma train_embeddings_cached (params : Params)
    (convert_index_to_lab : list (list Z) → list (list string))
    (train_set : list train_batch) (path : string) (fs : filesystem) :
  train_embeddings params convert_index_to_lab train_set path fs
  = cached_by_existence
      (OStat <$> train_stat_object params convert_index_to_lab train_set)
      path fs.
Proof.
  rewrite <- cached_path_exists. unfold train_embeddings.
  by rewrite bind_fmap.
Qed.

Lemma prepare_ndx_cached (Ndx_new : list string → list string → res Ndx.t)
    (enrol_obj test_obj : pyobj) (path : string) (fs : filesystem) :
  fs !! path ≠ Some Dir →
  prepare_ndx Ndx_new enrol_obj test_obj path fs
  = cached_by_existence (ONdx <$> make_ndx Ndx_new enrol_obj test_obj) path fs.
Proof.
  intros Hd. rewrite <- cached_isfile by done.
  unfold prepare_ndx. by rewrite bind_fmap.
Qed.

(** A block that tests [os.path.isfile] never returns when a directory
    sits at the path: the object cannot be saved. *)
Lemma isfile_block_Dir (recompute : res pyobj) (path : string)
    (fs : filesystem) :
  fs !! path = Some Dir →
  ∃ e,
    (if negb (isfile fs path)
     then o ← recompute; fs' ← save_object o path fs; mret (o, fs')
     else o ← pickle_load fs path; mret (o, fs)) = Err e.
Proof.
  intros Hp. unfold isfile, save_object. rewrite Hp. simpl.
  destruct recompute as [o|e]; simpl; by eexists.
Qed.

Lemma emb_computation_loop_not_Dir (params : Params) (split : string)
    (set_loader : list batch) (path : string) (fs fs' : filesystem)
    (o : pyobj) :
  emb_computation_loop params split set_loader path fs = Ok (o, fs') →
  fs !! path ≠ Some Dir.
Proof.
  intros H Hp.
  destruct (isfile_block_Dir (OStat <$> emb_stat_object params set_loader)
              path fs Hp) as [e He].
  unfold emb_computation_loop in H. rewrite bind_fmap in He. congruence.
Qed.

Lemma prepare_ndx_not_Dir (Ndx_new : list string → list string → res Ndx.t)
    (enrol_obj test_obj : pyobj) (path : string) (fs fs' : filesystem)
    (o : pyobj) :
  prepare_ndx Ndx_new enrol_obj test_obj path fs = Ok (o, fs') →
  fs !! path ≠ Some Dir.
Proof.
  intros H Hp.
  destruct (isfile_block_Dir (ONdx <$> make_ndx Ndx_new enrol_obj test_obj)
              path fs Hp) as [e He].
  unfold prepare_ndx in H. rewrite bind_fmap in He. congruence.
Qed.

(** X10: a block that returns leaves the object it returned in its cache
    file and touches no other path, be it the training block,
    [emb_computation_loop] or the preparation of the trial index. *)
Theorem block_writes_only_its_cache (params : Params)
    (convert_index_to_lab : list (list Z) → list (list string))
    (Ndx_new : list string → list string → res Ndx.t)
    (train_set : list train_batch) (split : string) (set_loader : list batch)
    (enrol_obj test_obj : pyobj) (path : string) (fs fs' : filesystem)
    (o : pyobj) :
  train_embeddings params convert_index_to_lab train_set path fs = Ok (o, fs')
  ∨ emb_computation_loop params split set_loader path fs = Ok (o, fs')
  ∨ prepare_ndx Ndx_new enrol_obj test_obj path fs = Ok (o, fs') →
  fs' !! path = Some (File (Ok o)) ∧ ∀ p, p ≠ path → fs' !! p = fs !! p.
Proof.
  intros [H|[H|H]].
  - rewrite train_embeddings_cached in H. by eapply cached_Ok.
  - rewrite emb_computation_loop_cached in H
      by by eapply emb_computation_loop_not_Dir.
    by eapply cached_Ok.
  - rewrite prepare_ndx_cached in H by by eapply prepare_ndx_not_Dir.
    by eapply cached_Ok.
Qed.

Lemma block_writes_only_its_cache_witness :
  (<["stat_test.pkl" := File (Ok (OStat sample_stat))]>
     ({[ "ndx.pkl" := Dir ]} : filesystem)) !! "stat_test.pkl"
  = Some (File (Ok (OStat sample_stat)))
  ∧ ∀ p, p ≠ "stat_test.pkl" →
      (<["stat_test.pkl" := File (Ok (OStat sample_stat))]>
         ({[ "ndx.pkl" := Dir ]} : filesystem)) !! p
      = ({[ "ndx.pkl" := Dir ]} : filesystem) !! p.
Proof.
  apply (block_writes_only_its_cache sample_params sample_index_to_lab
           sample_Ndx sample_train_set "test" sample_loader
           (OOther "") (OOther "") "stat_test.pkl" {[ "ndx.pkl" := Dir ]}
           _ (OStat sample_stat)).
  right. left. reflexivity.
Defined.

(** X11: what a block returned once it returns again: run on the file
    system it left, with any other loaders, labels or objects, each of
    the three blocks gives the same object and leaves the files as they
    are. *)
Theorem cached_blocks_repeat (params params' : Params)
    (convert_index_to_lab convert_index_to_lab' :
       list (list Z) → list (list string))
    (Ndx_new Ndx_new' : list string → list string → res Ndx.t)
    (train_set train_set' : list train_batch) (split split' : string)
    (set_loader set_loader' : list batch)
    (enrol_obj test_obj enrol_obj' test_obj' : pyobj) (path : string)
    (fs fs' : filesystem) (o : pyobj) :
  train_embeddings params convert_index_to_lab train_set path fs = Ok (o, fs')
  ∨ emb_computation_loop params split set_loader path fs = Ok (o, fs')
  ∨ prepare_ndx Ndx_new enrol_obj test_obj path fs = Ok (o, fs') →
  train_embeddings params' convert_index_to_lab' train_set' path fs'
  = Ok (o, fs')
  ∧ emb_computation_loop params' split' set_loader' path fs' = Ok (o, fs')
  ∧ prepare_ndx Ndx_new' enrol_obj' test_obj' path fs' = Ok (o, fs').
Proof.
  intros H.
  assert (fs' !! path = Some (File (Ok o))) as Hp.
  { destruct H as [H|[H|H]].
    - rewrite train_embeddings_cached in H. by eapply cached_Ok.
    - rewrite emb_computation_loop_cached in H
        by by eapply emb_computation_loop_not_Dir.
      by eapply cached_Ok.
    - rewrite prepare_ndx_cached in H by by eapply prepare_ndx_not_Dir.
      by eapply cached_Ok. }
  split; [|split].
  - rewrite train_embeddings_cached. by apply cached_hit.
  - rewrite emb_computation_loop_cached by by rewrite Hp.
    by apply cached_hit.
  - rewrite prepare_ndx_cached by by rewrite Hp. by apply cached_hit.
Qed.

Lemma cached_blocks_repeat_witness :
  train_embeddings sample_params sample_index_to_lab []
    "stat_test.pkl" (<["stat_test.pkl" := File (Ok (OStat sample_stat))]> ∅)
  = Ok (OStat sample_stat,
        <["stat_test.pkl" := File (Ok (OStat sample_stat))]> ∅)
  ∧ emb_computation_loop sample_params "enrol" sample_loader_swapped
      "stat_test.pkl"
      (<["stat_test.pkl" := File (Ok (OStat sample_stat))]> ∅)
    = Ok (OStat sample_stat,
          <["stat_test.pkl" := File (Ok (OStat sample_stat))]> ∅)
  ∧ prepare_ndx sample_Ndx (OOther "") (OOther "") "stat_test.pkl"
      (<["stat_test.pkl" := File (Ok (OStat sample_stat))]> ∅)
    = Ok (OStat sample_stat,
          <["stat_test.pkl" := File (Ok (OStat sample_stat))]> ∅).
Proof.
  apply (cached_blocks_repeat sample_params sample_params
           sample_index_to_lab sample_index_to_lab sample_Ndx sample_Ndx
           sample_train_set [] "test" "enrol" sample_loader
           sample_loader_swapped (OOther "") (OOther "") (OOther "")
           (OOther "") "stat_test.pkl" ∅).
  right. left. reflexivity.
Defined.

(** ** The cache paths and the whole run *)

Lemma append_inj_l (p a b : string) : p +:+ a = p +:+ b → a = b.
Proof.
  induction p as [|c p IH]; [done|].
  change (String c (p +:+ a) = String c (p +:+ b) → a = b).
  intros [= H]. by apply IH.
Qed.

Lemma path_join_relative (a : string) :
  ∃ q, ∀ b, startswith "/" b = false → path_join a b = a +:+ q +:+ b.
Proof.
  unfold path_join.
  destruct (match a with EmptyString => true | _ => endswith "/" a end).
  - exists EmptyString. intros b ->. done.
  - exists "/". intros b ->. done.
Qed.

Lemma path_join_inj (a b1 b2 : string) :
  startswith "/" b1 = false → startswith "/" b2 = false →
  path_join a b1 = path_join a b2 → b1 = b2.
Proof.
  intros H1 H2. destruct (path_join_relative a) as [q Hq].
  rewrite !Hq by done. by intros ?%append_inj_l%append_inj_l.
Qed.

(** X12: whatever the save folder, the four cache files of the script
    have four different paths, so no block reads or overwrites the cache
    of another. *)
Theorem cache_paths_are_distinct (save_folder : string) :
  NoDup [xv_file save_folder; enrol_stat_file save_folder;
         test_stat_file save_folder; ndx_file save_folder].
Proof.
  unfold xv_file, enrol_stat_file, test_stat_file, ndx_file.
  repeat (apply NoDup_cons; split);
    rewrite ?not_elem_of_cons; repeat split;
    try apply not_elem_of_nil; try apply NoDup_nil_2;
    intros H%path_join_inj; done.
Qed.





Example sample_run :
  main sample_params sample_index_to_lab sample_Ndx sample_EER sample_plda
    sample_scoring "save" sample_train_set sample_enrol sample_test
    sample_gt ∅
  = Ok (VFloat 0.25, sample_files).
Proof. reflexivity. Qed.



(** ** [get_utt_ids_for_test] and the trial index *)

Lemma comprehension_Ok {A B} (f : A → res B) (xs : list A) (ys : list B) :
  comprehension f xs = Ok ys ↔ Forall2 (λ x y, f x = Ok y) xs ys.
Proof.
  revert ys. induction xs as [|x xs IH]; intros ys; simpl.
  - split; [intros [= <-]; constructor|by intros ->%Forall2_nil_inv_l].
  - split.
    + intros (y & Hy & (ys' & Hys & [= <-])%bind_Ok)%bind_Ok.
      constructor; [done|by apply IH].
    + intros (y & ys' & Hy & Hys & ->)%Forall2_cons_inv_l.
      rewrite Hy. simpl. apply IH in Hys as ->. done.
Qed.

Lemma comprehension_Err {A B} (f : A → res B) (xs : list A) (e : exn) :
  comprehension f xs = Err e → ∃ x, x ∈ xs ∧ f x = Err e.
Proof.
  induction xs as [|x xs IH]; simpl; [done|].
  destruct (f x) as [y|e'] eqn:Hx; simpl.
  - destruct (comprehension f xs) as [ys|e'] eqn:Hxs; simpl; [done|].
    intros [= <-]. destruct (IH eq_refl) as (x' & Hin & Hx').
    exists x'. split; [by right|done].
  - intros [= <-]. exists x. split; [by left|done].
Qed.

Lemma comprehension_fails {A B} (f : A → res B) (xs : list A) (x : A)
    (e : exn) :
  x ∈ xs → f x = Err e → ∃ e', comprehension f xs = Err e'.
Proof.
  intros Hin Hx. destruct (comprehension f xs) as [ys|e'] eqn:Hxs;
    [|by exists e'].
  apply comprehension_Ok in Hxs.
  apply list_elem_of_lookup in Hin as [k Hk].
  destruct (Forall2_lookup_l _ _ _ _ _ Hxs Hk) as (y & _ & Hy). congruence.
Qed.

Lemma getitem_Err {V} (d : gmap string V) (k : string) (e : exn) :
  getitem d k = Err e → e = KeyError.
Proof. unfold getitem. destruct (d !! k); [done|by intros [= <-]]. Qed.

Lemma utt_data_Err (d : gmap string (gmap string (gmap string string)))
    (x key : string) (e : exn) :
  utt_data d x key = Err e → e = KeyError.
Proof.
  unfold utt_data.
  destruct (getitem d x) as [entry|e1] eqn:H1; simpl;
    [|intros [= <-]; by eapply getitem_Err].
  destruct (getitem entry key) as [w|e2] eqn:H2; simpl;
    [|intros [= <-]; by eapply getitem_Err].
  apply getitem_Err.
Qed.

Lemma utt_data_Ok (d : gmap string (gmap string (gmap string string)))
    (x key v : string) :
  utt_data d x key = Ok v
  ↔ ∃ entry w, d !! x = Some entry ∧ entry !! key = Some w
               ∧ w !! "data" = Some v.
Proof.
  unfold utt_data, getitem. split.
  - destruct (d !! x) as [entry|]; simpl; [|done].
    destruct (entry !! key) as [w|] eqn:Hw; simpl; [|done].
    destruct (w !! "data") as [v'|] eqn:Hv; [|done].
    intros [= <-]. by exists entry, w.
  - intros (entry & w & -> & Hw & Hv). simpl. rewrite Hw. simpl.
    by rewrite Hv.
Qed.

Lemma get_utt_ids_for_test_fields (ids mod_ seg : list string)
    (data_dict : gmap string (gmap string (gmap string string))) :
  get_utt_ids_for_test ids data_dict = Ok (mod_, seg) →
  Forall2 (λ x m, utt_data data_dict x "wav1" = Ok m) ids mod_
  ∧ Forall2 (λ x s, utt_data data_dict x "wav2" = Ok s) ids seg.
Proof.
  unfold get_utt_ids_for_test.
  intros (m & Hm & (s & Hs & [= <- <-])%bind_Ok)%bind_Ok.
  by apply comprehension_Ok in Hm, Hs.
Qed.

(** X15: [get_utt_ids_for_test] returns two lists exactly when every
    identity has an entry with a [wav1] and a [wav2] record holding a
    [data] field; the lists then give, identity by identity and in the
    order of [ids], the [data] of [wav1] and the [data] of [wav2]. *)
Theorem get_utt_ids_for_test_returns (ids mod_ seg : list string)
    (data_dict : gmap string (gmap string (gmap string string))) :
  get_utt_ids_for_test ids data_dict = Ok (mod_, seg)
  ↔ Forall2 (λ x m, ∃ entry w, data_dict !! x = Some entry
                      ∧ entry !! "wav1" = Some w ∧ w !! "data" = Some m)
      ids mod_
    ∧ Forall2 (λ x s, ∃ entry w, data_dict !! x = Some entry
                        ∧ entry !! "wav2" = Some w ∧ w !! "data" = Some s)
        ids seg.
Proof.
  unfold get_utt_ids_for_test. split.
  - intros (m & Hm & (s & Hs & [= <- <-])%bind_Ok)%bind_Ok.
    apply comprehension_Ok in Hm, Hs. split.
    + eapply Forall2_impl; [exact Hm|]. intros x v. apply utt_data_Ok.
    + eapply Forall2_impl; [exact Hs|]. intros x v. apply utt_data_Ok.
  - intros [Hm Hs].
    assert (comprehension (λ x, utt_data data_dict x "wav1") ids = Ok mod_)
      as ->.
    { apply comprehension_Ok. eapply Forall2_impl; [exact Hm|].
      intros x v. apply utt_data_Ok. }
    simpl.
    assert (comprehension (λ x, utt_data data_dict x "wav2") ids = Ok seg)
      as ->; [|done].
    apply comprehension_Ok. eapply Forall2_impl; [exact Hs|].
    intros x v. apply utt_data_Ok.
Qed.

(** X16: [get_utt_ids_for_test] raises exactly when some identity lacks
    its entry, its [wav1] or [wav2] record or the [data] field of one of
    them, and the exception is then [KeyError]. *)
Theorem get_utt_ids_for_test_raises (ids : list string)
    (data_dict : gmap string (gmap string (gmap string string))) :
  (∀ e, get_utt_ids_for_test ids data_dict = Err e → e = KeyError)
  ∧ (get_utt_ids_for_test ids data_dict = Err KeyError
     ↔ ∃ x, x ∈ ids
         ∧ (utt_data data_dict x "wav1" = Err KeyError
            ∨ utt_data data_dict x "wav2" = Err KeyError)).
Proof.
  assert (∀ e, get_utt_ids_for_test ids data_dict = Err e →
               e = KeyError
               ∧ ∃ x, x ∈ ids
                   ∧ (utt_data data_dict x "wav1" = Err KeyError
                      ∨ utt_data data_dict x "wav2" = Err KeyError))
    as Herr.
  { intros e. unfold get_utt_ids_for_test.
    destruct (comprehension (λ x, utt_data data_dict x "wav1") ids)
      as [m|e1] eqn:Hm; simpl.
    - destruct (comprehension (λ x, utt_data data_dict x "wav2") ids)
        as [s|e2] eqn:Hs; simpl; [done|].
      intros [= <-]. apply comprehension_Err in Hs as (x & Hin & Hx).
      pose proof (utt_data_Err _ _ _ _ Hx) as ->.
      split; [done|]. exists x. auto.
    - intros [= <-]. apply comprehension_Err in Hm as (x & Hin & Hx).
      pose proof (utt_data_Err _ _ _ _ Hx) as ->.
      split; [done|]. exists x. auto. }
  split; [intros e He; by apply Herr|]. split.
  - intros He. by apply (Herr KeyError).
  - intros (x & Hin & Hx).
    destruct (get_utt_ids_for_test ids data_dict) as [[m s]|e] eqn:Hget.
    + exfalso. apply get_utt_ids_for_test_fields in Hget as [Hm Hs].
      apply list_elem_of_lookup in Hin as [k Hk].
      destruct (Forall2_lookup_l _ _ _ _ _ Hm Hk) as (v1 & _ & H1).
      destruct (Forall2_lookup_l _ _ _ _ _ Hs Hk) as (v2 & _ & H2).
      destruct Hx; congruence.
    + f_equal. by apply Herr.
Qed.

Lemma emb_stat_object_modelset (params : Params) (set_loader : list batch)
    (o : StatObject_SB.t) :
  emb_stat_object params set_loader = Ok o →
  StatObject_SB.modelset o = concat (batch_ids <$> set_loader).
Proof.
  unfold emb_stat_object, np_empty.
  intros ([[ms ss] e] & Hloop & Hobj)%bind_Ok.
  apply emb_loop_Ok in Hloop as (-> & _ & [n Hn] & _).
  unfold make_stat_object in Hobj. rewrite Hn in Hobj.
  by injection Hobj as <-.
Qed.

(** X17: on a miss of its cache, the preparation of the trial index
    hands the index constructor the enrolment identities as models and
    the test identities as test segments, each in arrival order, when the
    two stat objects are the ones [emb_computation_loop] built; it reads
    the [modelset] of the test object, which is then its [segset]. *)
Theorem trial_index_built_from_identities (params : Params)
    (Ndx_new : list string → list string → res Ndx.t)
    (enrol_set test_set : list batch) (enrol_obj test_obj : StatObject_SB.t) :
  emb_stat_object params enrol_set = Ok enrol_obj →
  emb_stat_object params test_set = Ok test_obj →
  make_ndx Ndx_new (OStat enrol_obj) (OStat test_obj)
  = Ndx_new (concat (batch_ids <$> enrol_set))
      (concat (batch_ids <$> test_set)).
Proof.
  intros He Ht. unfold make_ndx. simpl.
  by rewrite (emb_stat_object_modelset _ _ _ He),
    (emb_stat_object_modelset _ _ _ Ht).
Qed.

Lemma trial_index_built_from_identities_witness :
  make_ndx sample_Ndx (OStat sample_enrol_stat) (OStat sample_test_stat)
  = sample_Ndx (concat (batch_ids <$> sample_enrol))
      (concat (batch_ids <$> sample_test)).
Proof.
  apply (trial_index_built_from_identities sample_params sample_Ndx
           sample_enrol sample_test).
  - reflexivity.
  - reflexivity.
Defined.

Example py_int_keeps_separators :
  py_int (String "028" "1") = Err ValueError
  ∧ py_strip (String "028" "1") = "1"
  ∧ py_int (String "009" "1") = Ok 1.
Proof. repeat split; reflexivity. Qed.
